(** * Vault App (chatUIStreamlit.py): retrieval and chat pipeline

    A shallow embedding of [src/code/Streamlit/chatUIStreamlit.py]:
    [get_context], [rewrite_query], [chat], the Streamlit handler that
    calls [chat], and [add_to_vector_store].

    Python objects that the functions receive through free names are
    dynamically typed ([value]); the module namespace is a finite map from
    names to values; exceptions are the [Raise] results of a state and
    exception monad in which the state reached at the moment of the
    exception is kept (mutations are not rolled back). The services the
    program calls (Ollama embeddings, the OpenAI chat-completions client,
    torch.cosine_similarity, the LangChain loaders and splitter, Chroma)
    are parameters of the development. *)

From Stdlib Require Import ZArith QArith Lia Ascii String.
From stdpp Require Import base option list sorting strings gmap.

Local Open Scope string_scope.
Local Open Scope list_scope.
Local Open Scope Z_scope.

(** ** Python strings *)

Module PyStr.

Definition nl : string := String (ascii_of_nat 10) EmptyString.

(** The characters [str.strip()] removes, among the ASCII ones:
    TAB, LF, VT, FF, CR, FS, GS, RS, US and the space. *)
Definition is_whitespace (a : ascii) : bool :=
  let c := nat_of_ascii a in
  ((9 <=? c)%nat && (c <=? 13)%nat) || ((28 <=? c)%nat && (c <=? 32)%nat).

Fixpoint lstrip_list (l : list ascii) : list ascii :=
  match l with
  | a :: l' => if is_whitespace a then lstrip_list l' else l
  | [] => []
  end.

Definition strip (s : string) : string :=
  string_of_list_ascii
    (rev (lstrip_list (rev (lstrip_list (list_ascii_of_string s))))).

(** [sep.join(l)] *)
Fixpoint join (sep : string) (l : list string) : string :=
  match l with
  | [] => ""
  | [x] => x
  | x :: l' => x +:+ sep +:+ join sep l'
  end.

End PyStr.

(** ** Values, exceptions and the monad *)

(** A torch tensor of two dimensions, as its rows. *)
Definition tensor : Type := list (list Q).

Inductive value : Type :=
| VStr (s : string)
| VTensor (t : tensor)
| VList (l : list string)
| VObject (name : string).   (* modules, functions, clients, widgets *)

Inductive exn : Type :=
| NameError (name : string)
| AttributeError
| TypeError
| IndexError
| KeyError (key : string)
| RuntimeError
| EmbeddingServiceError
| CompletionServiceError
| LoadError
| SplitterError
| StoreError.

Inductive result (A : Type) : Type :=
| Ok (a : A)
| Raise (e : exn).
Arguments Ok {A} a.
Arguments Raise {A} e.

(** A conversation turn: the dict [{"role": ..., "content": ...}]. *)
Record turn : Type := Turn { role : string; content : string }.

(** A request to [client.chat.completions.create]. *)
Record completion_request : Type := Request {
  req_model : value;
  req_messages : list turn;
  req_max_tokens : Z;
  req_n : option Z;
  req_temperature : option Q
}.

(** The calls made to the outside, oldest first. *)
Inductive event : Type :=
| EmbeddingsCall (model prompt : string)
| CompletionsCall (r : completion_request).

(** The mutable state a chat turn works on. [messages] is the one list
    object that is both [st.session_state['messages']] and the
    [conversation_history] argument of [chat]: the handler passes the
    list itself, so every append and every item assignment made by [chat]
    is an update of this field. *)
Record world : Type := World {
  messages : list turn;
  calls : list event
}.

Definition M (A : Type) : Type := world → result A * world.

#[global] Instance M_ret : MRet M := λ A a w, (Ok a, w).
#[global] Instance M_bind : MBind M := λ A B f m w,
  match m w with
  | (Ok a, w') => f a w'
  | (Raise e, w') => (Raise e, w')
  end.

Definition raise {A} (e : exn) : M A := λ w, (Raise e, w).

Definition log (e : event) : M unit :=
  λ w, (Ok tt, World (messages w) (calls w ++ [e])).

Definition get_calls : M (list event) := λ w, (Ok (calls w), w).

Definition get_messages : M (list turn) := λ w, (Ok (messages w), w).

(** [conversation_history.append(t)] *)
Definition history_append (t : turn) : M unit :=
  λ w, (Ok tt, World (messages w ++ [t]) (calls w)).

(** [conversation_history[-1]["content"] = c]; IndexError on an empty list. *)
Definition history_set_last_content (c : string) : M unit :=
  λ w, match messages w with
       | [] => (Raise IndexError, w)
       | _ :: _ =>
           let i := pred (length (messages w)) in
           (Ok tt, World (alter (λ t, Turn (role t) c) i (messages w)) (calls w))
       end.

(** The module namespace. *)
Abbreviation namespace := (gmap string value).

(** Reading a free name inside a function body. *)
Definition load_global (G : namespace) (x : string) : M value :=
  match G !! x with
  | Some v => mret v
  | None => raise (NameError x)
  end.

(** ** torch operations that the code uses *)

(** [t.nelement()] *)
Definition nelement (v : value) : M Z :=
  match v with
  | VTensor t => mret (Z.of_nat (length (concat t)))
  | _ => raise AttributeError
  end.

(** Scores paired with their positions, larger score first. *)
Definition score_ge (p1 p2 : Q * nat) : Prop := (p2.1 <= p1.1)%Q.

#[global] Instance score_ge_dec (p1 p2 : Q * nat) : Decision (score_ge p1 p2) :=
  Z_le_dec _ _.

Definition enumerate (l : list Q) : list (Q * nat) := zip l (seq 0 (length l)).

(** All the scores with their positions, sorted, larger score first. *)
Definition ranking (scores : list Q) : list (Q * nat) :=
  merge_sort score_ge (enumerate scores).

(** The first [m] entries of the ranking. *)
Definition top_ranked (scores : list Q) (m : nat) : list (Q * nat) :=
  take m (ranking scores).

(** [torch.topk(scores, k)]: the [k] largest scores and their positions,
    largest first; RuntimeError when [k] is out of range. *)
Definition topk (scores : list Q) (k : Z) : M (list Q * list nat) :=
  if (k <? 0) || (Z.of_nat (length scores) <? k) then raise RuntimeError
  else
    let top := top_ranked scores (Z.to_nat k) in
    mret (top.*1, top.*2).

(** [vault_content[idx].strip()] *)
Definition getitem_strip (v : value) (idx : nat) : M string :=
  match v with
  | VList l =>
      match l !! idx with
      | Some s => mret (PyStr.strip s)
      | None => raise IndexError
      end
  | VStr s =>
      match list_ascii_of_string s !! idx with
      | Some a => mret (PyStr.strip (String a EmptyString))
      | None => raise IndexError
      end
  | VTensor t =>
      match t !! idx with
      | Some _ => raise AttributeError
      | None => raise IndexError
      end
  | VObject _ => raise TypeError
  end.

(** ** JSON and dicts *)

(** A dict with string keys and string values, in insertion order. *)
Definition pydict : Type := list (string * string).

(** The text [json.dumps] produces for a dict of strings, named by the
    dict it encodes: [json.loads] gives that dict back. *)
Inductive json_text : Type := JsonText (d : pydict).

Definition json_dumps (d : pydict) : json_text := JsonText d.
Definition json_loads (j : json_text) : pydict := let 'JsonText d := j in d.

(** [d[k]] *)
Fixpoint dict_get (d : pydict) (k : string) : M string :=
  match d with
  | [] => raise (KeyError k)
  | (k', v) :: d' => if decide (k' = k) then mret v else dict_get d' k
  end.

(** ** The texts of the prompts *)

Definition rewrite_prompt_head : string := "Rewrite the following query by incorporating relevant context from the conversation history.
    The rewritten query should:
    
    - Preserve the core intent and meaning of the original query
    - Expand and clarify the query to make it more specific and informative for retrieving relevant context
    - Avoid introducing new topics or queries that deviate from the original query
    - DONT EVER ANSWER the Original query, but instead focus on rephrasing and expanding it into a new query
    - Return the output as plain text, without any additional formatting
    
    Return ONLY the rewritten query text, without any additional formatting or explanations.
    
    Conversation History:
    ".
Definition rewrite_prompt_mid : string := "
    
    Original query: [".
Definition rewrite_prompt_tail : string := "]
    
    Rewritten query: 
    ".

Definition system_message : string := "You are a helpful assistant that is an expert at extracting the most useful information from a given text. Also bring in extra relevant information to the user query from outside the given context.".

Definition context_separator : string :=
  PyStr.nl +:+ PyStr.nl +:+ "Relevant Context:" +:+ PyStr.nl.

(** ** The services the pipeline calls *)

Record services : Type := Services {
  (** [ollama.embeddings(model=..., prompt=...)["embedding"]]: the answer
      may depend on everything that was called before; [None] is a failed
      call. *)
  ollama_embeddings : list event → string → string → option (list Q);
  (** [client.chat.completions.create(...).choices[0].message.content] *)
  chat_completions_create : list event → completion_request → option string;
  (** [torch.cosine_similarity(torch.tensor(q).unsqueeze(0), t)]: one
      score per row of [t], or a RuntimeError (shapes that do not
      broadcast). *)
  torch_cosine_similarity : list Q → tensor → option (list Q)
}.

Section Pipeline.

Variable svc : services.

Definition embeddings (model prompt : string) : M (list Q) :=
  tr ← get_calls;
  log (EmbeddingsCall model prompt);;
  match ollama_embeddings svc tr model prompt with
  | Some e => mret e
  | None => raise EmbeddingServiceError
  end.

Definition completions (r : completion_request) : M string :=
  tr ← get_calls;
  log (CompletionsCall r);;
  match chat_completions_create svc tr r with
  | Some s => mret s
  | None => raise CompletionServiceError
  end.

Definition cosine_similarity (q : list Q) (v : value) : M (list Q) :=
  match v with
  | VTensor t =>
      match torch_cosine_similarity svc q t with
      | Some s => mret s
      | None => raise RuntimeError
      end
  | _ => raise TypeError
  end.

(** ** get_context *)

Definition get_context (rewritten_input : string)
    (vault_embeddings vault_content : value) (top_k : Z) : M (list string) :=
  n ← nelement vault_embeddings;
  if n =? 0 then mret []
  else
    input_embedding ← embeddings "nomic-embed-text" rewritten_input;
    cos_scores ← cosine_similarity input_embedding vault_embeddings;
    let top_k := Z.min top_k (Z.of_nat (length cos_scores)) in
    top ← topk cos_scores top_k;
    let top_indices := top.2 in
    mapM (getitem_strip vault_content) top_indices.

(** ** rewrite_query *)

(** [f"{msg['role']}: {msg['content']}"] *)
Definition format_turn (msg : turn) : string :=
  role msg +:+ ": " +:+ content msg.

(** [l[-2:]] *)
Definition last_two {A} (l : list A) : list A := drop (length l - 2)%nat l.

Definition rewrite_query (user_input_json : json_text)
    (conversation_history : list turn) (ollama_model : value) : M json_text :=
  user_input ← dict_get (json_loads user_input_json) "Query";
  let context := PyStr.join PyStr.nl (format_turn <$> last_two conversation_history) in
  let prompt := rewrite_prompt_head +:+ context +:+ rewrite_prompt_mid
                +:+ user_input +:+ rewrite_prompt_tail in
  response ← completions (Request ollama_model [Turn "system" prompt] 200
                                  (Some 1) (Some (1 # 10)%Q));
  let rewritten_query := PyStr.strip response in
  mret (json_dumps [("Rewritten Query", rewritten_query)]).

(** ** chat *)

(** The module namespace in which the free names of [chat] are looked up. *)
Variable G : namespace.

(** The default of the [top_k] parameter of [get_context]. *)
Definition get_context_default_top_k : Z := 3.

(** The content the last user turn is given: the raw input, followed by
    the separator and the joined chunks when there are chunks. *)
Definition with_context (user_input : string) (relevant_context : list string)
    : string :=
  match relevant_context with
  | [] => user_input
  | _ :: _ =>
      let context_str := PyStr.join PyStr.nl relevant_context in
      user_input +:+ context_separator +:+ context_str
  end.

Definition chat (user_input : string) (model : value) (top_k : Z) : M string :=
  history_append (Turn "user" user_input);;
  conversation_history ← get_messages;
  rewritten_query ←
    (if (1 <? length conversation_history)%nat then
       let query_json := [("Query", user_input); ("Rewritten Query", "")] in
       ollama_model ← load_global G "ollama_model";
       rewritten_query_json ←
         rewrite_query (json_dumps query_json) conversation_history ollama_model;
       let rewritten_query_data := json_loads rewritten_query_json in
       dict_get rewritten_query_data "Rewritten Query"
     else mret user_input);
  vault_embeddings ← load_global G "vault_embeddings";
  vault_content ← load_global G "vault_content";
  relevant_context ←
    get_context rewritten_query vault_embeddings vault_content
                get_context_default_top_k;
  let user_input_with_context := with_context user_input relevant_context in
  history_set_last_content user_input_with_context;;
  conversation_history ← get_messages;
  let messages := Turn "system" system_message :: conversation_history in
  ollama_model ← load_global G "ollama_model";
  response ← completions (Request ollama_model messages 2000 None None);
  history_append (Turn "assistant" response);;
  mret response.

(** *** The three phases of [chat]

    The body of [chat] after its first append, cut at the two places the
    specification speaks of: the query that goes to retrieval, the
    retrieved context, and the reply. [chat_phases] below shows that
    [chat] is their sequence. *)

Definition rewriting (user_input : string) (conversation_history : list turn)
    : M string :=
  if (1 <? length conversation_history)%nat then
    let query_json := [("Query", user_input); ("Rewritten Query", "")] in
    ollama_model ← load_global G "ollama_model";
    rewritten_query_json ←
      rewrite_query (json_dumps query_json) conversation_history ollama_model;
    let rewritten_query_data := json_loads rewritten_query_json in
    dict_get rewritten_query_data "Rewritten Query"
  else mret user_input.

Definition retrieval (user_input : string) : M (list string) :=
  conversation_history ← get_messages;
  rewritten_query ← rewriting user_input conversation_history;
  vault_embeddings ← load_global G "vault_embeddings";
  vault_content ← load_global G "vault_content";
  get_context rewritten_query vault_embeddings vault_content
              get_context_default_top_k.

Definition main_request (ollama_model : value) (conversation_history : list turn)
    : completion_request :=
  Request ollama_model (Turn "system" system_message :: conversation_history)
          2000 None None.

Definition reply (user_input : string) (relevant_context : list string)
    : M string :=
  history_set_last_content (with_context user_input relevant_context);;
  conversation_history ← get_messages;
  ollama_model ← load_global G "ollama_model";
  response ← completions (main_request ollama_model conversation_history);
  history_append (Turn "assistant" response);;
  mret response.

(** ** The Streamlit handler of the query box

    [if user_input: response = chat(...); st.session_state['messages']
    .append(user turn); .append(assistant turn)]. The list appended to
    is the one [chat] has just worked on. *)
Definition on_user_input (user_input : string) (model : value) (top_k : Z)
    : M (option string) :=
  if decide (user_input = "") then mret None
  else
    response ← chat user_input model top_k;
    history_append (Turn "user" user_input);;
    history_append (Turn "assistant" response);;
    mret (Some response).

End Pipeline.

(** ** The module namespace of the script

    Every name the top-level statements of the script bind before the
    handler runs (the imports, the four functions, the clients, and the
    variables of the Streamlit part, those bound under a condition
    included). Only [user_input] is given its value; the others are
    objects the embedding never inspects. *)
Definition module_names : list string :=
  [ "torch"; "ollama"; "OpenAI"; "json"; "st"; "os"; "tempfile"; "uuid4";
    "PyPDFLoader"; "UnstructuredMarkdownLoader"; "JSONLoader"; "TextLoader";
    "RecursiveCharacterTextSplitter"; "Chroma"; "OllamaEmbeddings";
    "add_to_vector_store"; "get_context"; "rewrite_query"; "chat";
    "client"; "embeddings"; "vector_store"; "retriever";
    "uploaded_files"; "new_files"; "new_file"; "message" ].

Definition module_globals (user_input : string) : namespace :=
  <["user_input" := VStr user_input]>
    (list_to_map ((λ x, (x, VObject x)) <$> module_names)).
Arguments module_globals : simpl never.

(** ** Ingestion: add_to_vector_store *)

Module Ingestion.

(** What [st.file_uploader] hands over. *)
Record uploaded_file : Type := UploadedFile {
  file_name : string;
  file_type : string;
  file_value : string    (* the bytes of the upload *)
}.

(** A LangChain Document. *)
Record document : Type := Document {
  page_content : string;
  metadata : gmap string string
}.

(** The loader object that the content type selects. *)
Inductive loader : Type :=
| PyPDFLoader (file_path : string)
| JSONLoader (file_path jq_schema : string) (text_content : bool)
| UnstructuredMarkdownLoader (file_path : string)
| TextLoader (file_path : string).

(** The files on disk, by path, and the records of the Chroma
    collection, by id, with the number of ids drawn so far. *)
Record vault : Type := Vault {
  fs : gmap string string;
  collection : list (string * document);
  uuids_drawn : nat
}.

Definition I (A : Type) : Type := vault → result A * vault.

#[global] Instance I_ret : MRet I := λ A a v, (Ok a, v).
#[global] Instance I_bind : MBind I := λ A B f m v,
  match m v with
  | (Ok a, v') => f a v'
  | (Raise e, v') => (Raise e, v')
  end.

Definition fail {A} (e : exn) : I A := λ v, (Raise e, v).

Definition of_option {A} (e : exn) (o : option A) : I A :=
  match o with Some a => mret a | None => fail e end.

Section AddToVectorStore.

(** The path [tempfile.NamedTemporaryFile] picks, given the files that
    exist. *)
Variable tmp_name : gmap string string → string.

(** [loader.load()], reading the disk; [None] when it raises. *)
Variable loader_load : loader → gmap string string → option (list document).

(** [RecursiveCharacterTextSplitter(chunk_size, chunk_overlap)
    .split_documents(data)]; [None] when it raises. *)
Variable split_documents : Z → Z → list document → option (list document).

(** [uuid4()], by the number of ids drawn before it. *)
Variable uuid4 : nat → string.

(** [vector_store.add_documents(documents, ids)]: the collection
    afterwards; [None] when it raises. *)
Variable add_documents :
  list (string * document) → list document → list string →
  option (list (string * document)).

(** [with tempfile.NamedTemporaryFile(delete=False) as tmp:
       tmp.write(bytes); tmp_file_path = tmp.name] *)
Definition write_temp (bytes : string) : I string :=
  λ v, let p := tmp_name (fs v) in
       (Ok p, Vault (<[p := bytes]> (fs v)) (collection v) (uuids_drawn v)).

(** [os.unlink(path)] *)
Definition unlink (path : string) : I unit :=
  λ v, (Ok tt, Vault (delete path (fs v)) (collection v) (uuids_drawn v)).

Definition select_loader (type tmp_file_path : string) : loader :=
  if decide (type = "application/pdf") then PyPDFLoader tmp_file_path
  else if decide (type = "application/json") then
    JSONLoader tmp_file_path "." false
  else if decide (type = "text/markdown") then
    UnstructuredMarkdownLoader tmp_file_path
  else TextLoader tmp_file_path.

Definition load (l : loader) : I (list document) :=
  λ v, of_option LoadError (loader_load l (fs v)) v.

(** [document.metadata["source"] = name] *)
Definition set_source (name : string) (d : document) : document :=
  Document (page_content d) (<["source" := name]> (metadata d)).

(** [[name + str(uuid4()) for _ in range(n)]] *)
Definition draw_uuids (name : string) (n : nat) : I (list string) :=
  λ v, (Ok ((λ i, name +:+ uuid4 i) <$> seq (uuids_drawn v) n),
        Vault (fs v) (collection v) (uuids_drawn v + n)).

Definition store_add (docs : list document) (ids : list string) : I unit :=
  λ v, match add_documents (collection v) docs ids with
       | Some c => (Ok tt, Vault (fs v) c (uuids_drawn v))
       | None => (Raise StoreError, v)
       end.

Definition add_to_vector_store (file : option uploaded_file)
    (chunk_size chunk_overlap : Z) : I unit :=
  match file with
  | None => mret tt
  | Some file =>
      tmp_file_path ← write_temp (file_value file);
      let loader := select_loader (file_type file) tmp_file_path in
      data ← load loader;
      let data := set_source (file_name file) <$> data in
      chunked_data ←
        of_option SplitterError (split_documents chunk_size chunk_overlap data);
      uuids ← draw_uuids (file_name file) (length chunked_data);
      store_add chunked_data uuids;;
      unlink tmp_file_path
  end.

End AddToVectorStore.

End Ingestion.

(** ** Vocabulary of the statements *)

(** Computations that leave the conversation history alone. *)
Definition keeps_messages {A} (m : M A) : Prop :=
  ∀ w, messages (m w).2 = messages w.

(** Computations that neither read nor change the state. *)
Definition stateless {A} (m : M A) : Prop :=
  ∀ w w', m w = ((m w').1, w).

(** The world [chat] hands to retrieval: the raw user turn is appended. *)
Definition appended (user_input : string) (w : world) : world :=
  World (messages w ++ [Turn "user" user_input]) (calls w).

(** The chunks at the given positions, stripped. *)
Definition stripped_chunks (content : list string) (idxs : list nat) : list string :=
  (λ i, PyStr.strip (default "" (content !! i))) <$> idxs.

(** ** Sample data: a store of four chunks and stand-ins for the services *)

Module Demo.

Definition question : string := "What is delta?".

Definition dot (a b : list Q) : Q := foldr Qplus 0%Q (zip_with Qmult a b).

(** A similarity that scores every row by its product with the query. *)
Definition row_scores (q : list Q) (t : tensor) : option (list Q) :=
  Some (dot q <$> t).

Definition embeddings_up (tr : list event) (model prompt : string)
    : option (list Q) := Some [1%Q; 0%Q].

Definition embeddings_down (tr : list event) (model prompt : string)
    : option (list Q) := None.

Definition completions_up (tr : list event) (r : completion_request)
    : option string := Some "It is blue.".

Definition completions_down (tr : list event) (r : completion_request)
    : option string := None.

(** Four stored chunks, with scores 1, 0, 1 and 2 against the query
    embedding [1; 0]. *)
Definition vault_embeddings : tensor :=
  [[1; 0]; [0; 1]; [1; 1]; [2; 0]]%Q.

Definition vault_content : list string :=
  ["alpha"; " beta "; "gamma"; "delta"].

(** The namespace of the script with the three names [chat] needs bound
    on top of it. *)
Definition globals : namespace :=
  <["ollama_model" := VStr "gemma2:2b"]>
    (<["vault_embeddings" := VTensor vault_embeddings]>
       (<["vault_content" := VList vault_content]>
          (module_globals question))).

Definition fresh_session : world := World [] [].

Definition svc : services :=
  Services embeddings_up completions_up row_scores.

Definition svc_embeddings_down : services :=
  Services embeddings_down completions_up row_scores.

Definition svc_completions_down : services :=
  Services embeddings_up completions_down row_scores.

Definition selected_model : value := VStr "gemma2:2b".

(** What retrieval gives for [question] in a fresh session. *)
Definition context : list string := ["delta"; "alpha"; "gamma"].

Definition after_retrieval : world :=
  World [Turn "user" question] [EmbeddingsCall "nomic-embed-text" question].

(** An upload, a disk with no files, and stand-ins for the libraries. *)
Definition upload : Ingestion.uploaded_file :=
  Ingestion.UploadedFile "sky.txt" "text/plain" "The sky is blue".

Definition empty_vault : Ingestion.vault := Ingestion.Vault ∅ [] 0.

Definition tmp_name (files : gmap string string) : string := "/tmp/tmpk1r9x2vd".

Definition loader_up (l : Ingestion.loader) (files : gmap string string)
    : option (list Ingestion.document) :=
  match l with
  | Ingestion.TextLoader path =>
      (λ bytes, [Ingestion.Document bytes {["source" := path]}]) <$> files !! path
  | _ => None
  end.

Definition loader_down (l : Ingestion.loader) (files : gmap string string)
    : option (list Ingestion.document) := None.

Definition split_documents (chunk_size chunk_overlap : Z)
    (data : list Ingestion.document) : option (list Ingestion.document) :=
  Some data.

Definition uuid4 (i : nat) : string := "-0000".

Definition add_documents (c : list (string * Ingestion.document))
    (docs : list Ingestion.document) (ids : list string)
    : option (list (string * Ingestion.document)) :=
  Some (c ++ zip ids docs).

End Demo.

(** ** The Streamlit script around the two functions *)

Module Ui.

Import Ingestion.

(** The loop that draws the history: a turn whose role is ["user"] is
    drawn in a user bubble, every other turn in an assistant bubble, with
    the content of the turn as its text. *)
Definition chat_message_label (message : turn) : string :=
  if decide (role message = "user") then "user" else "assistant".

Definition display_history (history : list turn) : list (string * string) :=
  (λ message, (chat_message_label message, content message)) <$> history.

(** The disk and the collection, with [st.session_state.uploaded_files]. *)
Record app : Type := App {
  app_vault : vault;
  session_uploaded_files : list uploaded_file
}.

(** The defaults of [add_to_vector_store], which the script relies on. *)
Definition default_chunk_size : Z := 256.
Definition default_chunk_overlap : Z := 100.

Section Uploads.

Variable tmp_name : gmap string string → string.
Variable loader_load : loader → gmap string string → option (list document).
Variable split_documents : Z → Z → list document → option (list document).
Variable uuid4 : nat → string.
Variable add_documents :
  list (string * document) → list document → list string →
  option (list (string * document)).

(** The comparison behind [file not in st.session_state.uploaded_files]:
    that of the uploaded-file objects, which the widget library defines. *)
Variable file_eq : uploaded_file → uploaded_file → bool.

(** [file in files] *)
Definition file_in (file : uploaded_file) (files : list uploaded_file) : bool :=
  existsb (file_eq file) files.

(** [for new_file in new_files: add_to_vector_store(new_file, vector_store)] *)
Fixpoint ingest_each (new_files : list uploaded_file) : I unit :=
  match new_files with
  | [] => mret tt
  | new_file :: rest =>
      add_to_vector_store tmp_name loader_load split_documents uuid4 add_documents
        (Some new_file) default_chunk_size default_chunk_overlap;;
      ingest_each rest
  end.

(** The part of the script that follows the upload widget. *)
Definition on_upload (uploaded_files : list uploaded_file) (a : app)
    : result unit * app :=
  match uploaded_files with
  | [] => (Ok tt, a)
  | _ :: _ =>
      let new_files :=
        List.filter (λ file, negb (file_in file (session_uploaded_files a)))
                    uploaded_files in
      match new_files with
      | [] => (Ok tt, a)
      | _ :: _ =>
          match ingest_each new_files (app_vault a) with
          | (Ok _, v) => (Ok tt, App v (session_uploaded_files a ++ new_files))
          | (Raise e, v) => (Raise e, App v (session_uploaded_files a))
          end
      end
  end.

End Uploads.

End Ui.

(** ** More vocabulary *)

(** A history whose roles go user, assistant, user, assistant, ... and
    end on an assistant turn. *)
Fixpoint alternates (history : list turn) : bool :=
  match history with
  | [] => true
  | u :: a :: rest =>
      bool_decide (role u = "user") && bool_decide (role a = "assistant")
      && alternates rest
  | [_] => false
  end.

(** Computations that add at most [n] calls to the log and leave the
    calls logged before in place. *)
Definition calls_at_most (n : nat) {A} (m : M A) : Prop :=
  ∀ w, ∃ l, calls (m w).2 = calls w ++ l ∧ (length l ≤ n)%nat.

(** The request [rewrite_query] sends for a user input and a history. *)
Definition rewrite_request (ollama_model : value) (user_input : string)
    (conversation_history : list turn) : completion_request :=
  Request ollama_model
    [Turn "system"
       (rewrite_prompt_head
        +:+ PyStr.join PyStr.nl (format_turn <$> last_two conversation_history)
        +:+ rewrite_prompt_mid +:+ user_input +:+ rewrite_prompt_tail)]
    200 (Some 1) (Some (1 # 10)%Q).

(** More sample data: a second upload, and a comparison of uploads by name. *)
Module Demo2.

Definition upload2 : Ingestion.uploaded_file :=
  Ingestion.UploadedFile "sea.txt" "text/plain" "The sea is deep".

Definition same_name (f g : Ingestion.uploaded_file) : bool :=
  bool_decide (Ingestion.file_name f = Ingestion.file_name g).

Definition uuid_of (i : nat) : string :=
  String (ascii_of_nat (48 + i)) EmptyString.

Definition earlier_turns : list turn :=
  [Turn "user" "What is alpha?"; Turn "assistant" "The first letter."].

Definition later_session : world := World earlier_turns [].

(** The sample namespace with a store that holds nothing. *)
Definition globals_empty_store : namespace :=
  <["vault_embeddings" := VTensor []]> Demo.globals.

Definition query_json : json_text := json_dumps [("Query", Demo.question)].

Definition fresh_app : Ui.app := Ui.App Demo.empty_vault [].

Definition app_with_upload : Ui.app := Ui.App Demo.empty_vault [Demo.upload].

End Demo2.

(** * Properties *)

(** ** Running the monad *)

Lemma bind_run {A B} (m : M A) (f : A → M B) (w : world) :
  (m ≫= f) w =
  match m w with
  | (Ok a, w') => f a w'
  | (Raise e, w') => (Raise e, w')
  end.
Proof. reflexivity. Qed.

Lemma bind_assoc {A B C} (m : M A) (f : A → M B) (g : B → M C) (w : world) :
  ((m ≫= f) ≫= g) w = (m ≫= (λ a, f a ≫= g)) w.
Proof.
  rewrite !bind_run.
  destruct (m w) as [[a|e] w']; reflexivity.
Qed.

Lemma bind_ext {A B} (m : M A) (f g : A → M B) (w : world) :
  (∀ a w', f a w' = g a w') → (m ≫= f) w = (m ≫= g) w.
Proof.
  intros Hfg. rewrite !bind_run.
  destruct (m w) as [[a|e] w']; [apply Hfg | reflexivity].
Qed.

Create HintDb vault discriminated.

Lemma keeps_mret {A} (a : A) : keeps_messages (mret a).
Proof. intros w. reflexivity. Qed.

Lemma keeps_raise {A} (e : exn) : keeps_messages (@raise A e).
Proof. intros w. reflexivity. Qed.

Lemma keeps_bind {A B} (m : M A) (f : A → M B) :
  keeps_messages m → (∀ a, keeps_messages (f a)) → keeps_messages (m ≫= f).
Proof.
  intros Hm Hf w. rewrite bind_run. specialize (Hm w).
  destruct (m w) as [[a|e] w']; simpl in *; [| assumption].
  rewrite Hf. assumption.
Qed.

Lemma keeps_log (e : event) : keeps_messages (log e).
Proof. intros w. reflexivity. Qed.

Lemma keeps_get_calls : keeps_messages get_calls.
Proof. intros w. reflexivity. Qed.

Lemma keeps_get_messages : keeps_messages get_messages.
Proof. intros w. reflexivity. Qed.

Lemma stateless_keeps {A} (m : M A) : stateless m → keeps_messages m.
Proof. intros Hm w. rewrite (Hm w w). reflexivity. Qed.

Lemma stateless_mret {A} (a : A) : stateless (mret a).
Proof. intros w w'. reflexivity. Qed.

Lemma stateless_raise {A} (e : exn) : stateless (@raise A e).
Proof. intros w w'. reflexivity. Qed.

Lemma stateless_bind {A B} (m : M A) (f : A → M B) :
  stateless m → (∀ a, stateless (f a)) → stateless (m ≫= f).
Proof.
  intros Hm Hf w w'. rewrite !bind_run.
  rewrite (Hm w w'), (Hm w' w').
  destruct (m w').1 as [a|e]; [apply Hf | reflexivity].
Qed.

Lemma stateless_mapM {A B} (f : A → M B) (l : list A) :
  (∀ a, stateless (f a)) → stateless (mapM f l).
Proof.
  intros Hf. induction l as [|a l IH]; simpl.
  - apply stateless_mret.
  - apply stateless_bind; [apply Hf |]. intros b.
    apply stateless_bind; [apply IH |]. intros k. apply stateless_mret.
Qed.

Lemma stateless_load_global (G : namespace) (x : string) : stateless (load_global G x).
Proof.
  unfold load_global. destruct (G !! x); [apply stateless_mret | apply stateless_raise].
Qed.

Lemma stateless_nelement (v : value) : stateless (nelement v).
Proof. destruct v; simpl; first [apply stateless_mret | apply stateless_raise]. Qed.

Lemma stateless_topk (scores : list Q) (k : Z) : stateless (topk scores k).
Proof.
  unfold topk. destruct (_ || _); [apply stateless_raise | apply stateless_mret].
Qed.

Lemma stateless_getitem_strip (v : value) (idx : nat) : stateless (getitem_strip v idx).
Proof.
  destruct v as [s|t|l|x]; simpl.
  - destruct (_ !! idx); [apply stateless_mret | apply stateless_raise].
  - destruct (_ !! idx); apply stateless_raise.
  - destruct (_ !! idx); [apply stateless_mret | apply stateless_raise].
  - apply stateless_raise.
Qed.

Lemma stateless_dict_get (d : pydict) (k : string) : stateless (dict_get d k).
Proof.
  induction d as [|[k' v] d IH]; simpl.
  - apply stateless_raise.
  - destruct (decide (k' = k)); [apply stateless_mret | apply IH].
Qed.

Lemma stateless_cosine_similarity (svc : services) (q : list Q) (v : value) :
  stateless (cosine_similarity svc q v).
Proof.
  destruct v as [s|t|l|x]; simpl; try apply stateless_raise.
  destruct (torch_cosine_similarity svc q t);
    [apply stateless_mret | apply stateless_raise].
Qed.

#[export] Hint Resolve keeps_mret keeps_raise keeps_log keeps_get_calls
  keeps_get_messages stateless_mret stateless_raise stateless_load_global
  stateless_nelement stateless_topk stateless_getitem_strip stateless_dict_get
  stateless_cosine_similarity stateless_mapM stateless_keeps : vault.

Ltac keeps :=
  repeat first
    [ apply keeps_bind; [| intros ?]
    | solve [auto with vault]
    | match goal with
      | |- keeps_messages (if ?b then _ else _) => destruct b
      | |- keeps_messages (match ?o with Some _ => _ | None => _ end) => destruct o
      end ].

Lemma keeps_embeddings (svc : services) (model prompt : string) :
  keeps_messages (embeddings svc model prompt).
Proof. unfold embeddings. keeps. Qed.

Lemma keeps_completions (svc : services) (r : completion_request) :
  keeps_messages (completions svc r).
Proof. unfold completions. keeps. Qed.

#[export] Hint Resolve keeps_embeddings keeps_completions : vault.

Lemma keeps_get_context (svc : services) (q : string) (E C : value) (k : Z) :
  keeps_messages (get_context svc q E C k).
Proof. unfold get_context. keeps. Qed.

Lemma keeps_rewrite_query (svc : services) (j : json_text) (h : list turn) (m : value) :
  keeps_messages (rewrite_query svc j h m).
Proof. unfold rewrite_query. keeps. Qed.

#[export] Hint Resolve keeps_get_context keeps_rewrite_query : vault.

Lemma keeps_rewriting (svc : services) (G : namespace) (ui : string) (h : list turn) :
  keeps_messages (rewriting svc G ui h).
Proof. unfold rewriting. keeps. Qed.

#[export] Hint Resolve keeps_rewriting : vault.

Lemma keeps_retrieval (svc : services) (G : namespace) (ui : string) :
  keeps_messages (retrieval svc G ui).
Proof. unfold retrieval. keeps. Qed.

Section PipelineFacts.

Context (svc : services) (G : namespace).

Lemma chat_phases (user_input : string) (model : value) (top_k : Z) (w : world) :
  chat svc G user_input model top_k w =
  (history_append (Turn "user" user_input);;
   relevant_context ← retrieval svc G user_input;
   reply svc G user_input relevant_context) w.
Proof.
  unfold chat, retrieval, reply, rewriting, main_request.
  apply bind_ext; intros _ w1.
  do 4 (rewrite bind_assoc; apply bind_ext; intros ? ?).
  reflexivity.
Qed.

Lemma chat_run (user_input : string) (model : value) (top_k : Z) (w : world) :
  chat svc G user_input model top_k w =
  match retrieval svc G user_input (appended user_input w) with
  | (Ok relevant_context, w1) => reply svc G user_input relevant_context w1
  | (Raise e, w1) => (Raise e, w1)
  end.
Proof. rewrite chat_phases. reflexivity. Qed.

Lemma alter_last {A} (f : A → A) (h : list A) (t : A) :
  alter f (pred (length (h ++ [t]))) (h ++ [t])%list = (h ++ [f t])%list.
Proof.
  rewrite length_app. simpl.
  replace (pred (length h + 1)) with (length h + 0)%nat by lia.
  rewrite alter_app_r. reflexivity.
Qed.

Lemma history_set_last_content_run (c : string) (w : world) (h : list turn) (t : turn) :
  messages w = (h ++ [t])%list →
  history_set_last_content c w = (Ok tt, World (h ++ [Turn (role t) c]) (calls w)).
Proof.
  intros Hw. unfold history_set_last_content. rewrite Hw.
  destruct (h ++ [t])%list eqn:Hh.
  - destruct h; discriminate.
  - rewrite <- Hh, alter_last. reflexivity.
Qed.

Lemma reply_run (user_input : string) (relevant_context : list string)
    (w1 : world) (h : list turn) (t : turn) :
  messages w1 = (h ++ [t])%list →
  reply svc G user_input relevant_context w1 =
  let hist := (h ++ [Turn (role t) (with_context user_input relevant_context)])%list in
  match G !! "ollama_model" with
  | None => (Raise (NameError "ollama_model"), World hist (calls w1))
  | Some m =>
      let log' := calls w1 ++ [CompletionsCall (main_request m hist)] in
      match chat_completions_create svc (calls w1) (main_request m hist) with
      | Some r => (Ok r, World (hist ++ [Turn "assistant" r]) log')
      | None => (Raise CompletionServiceError, World hist log')
      end
  end.
Proof.
  intros Hw. unfold reply. rewrite bind_run.
  rewrite (history_set_last_content_run _ _ _ _ Hw).
  rewrite bind_run. simpl. rewrite bind_run. unfold load_global.
  destruct (G !! "ollama_model") as [m|]; [| reflexivity].
  simpl. unfold completions. rewrite !bind_run. simpl.
  destruct (chat_completions_create svc (calls w1) _); reflexivity.
Qed.

Lemma retrieval_messages (user_input : string) (w : world) :
  messages (retrieval svc G user_input (appended user_input w)).2 =
  (messages w ++ [Turn "user" user_input])%list.
Proof. rewrite keeps_retrieval. reflexivity. Qed.

(** [chat] never looks at its [model] and [top_k] arguments. *)
Lemma chat_ignores_model_and_top_k (user_input : string) (model model' : value)
    (top_k top_k' : Z) (w : world) :
  chat svc G user_input model top_k w = chat svc G user_input model' top_k' w.
Proof. reflexivity. Qed.

Lemma chat_Ok_messages (user_input : string) (model : value) (top_k : Z)
    (w w' : world) (r : string) :
  chat svc G user_input model top_k w = (Ok r, w') →
  ∃ ctx, messages w' =
         messages w ++ [Turn "user" (with_context user_input ctx);
                        Turn "assistant" r].
Proof.
  rewrite chat_run.
  pose proof (retrieval_messages user_input w) as Hm.
  destruct (retrieval svc G user_input (appended user_input w)) as [[ctx|e] w1];
    [| discriminate].
  simpl in Hm. rewrite (reply_run _ _ _ _ _ Hm). simpl.
  destruct (G !! "ollama_model") as [m|]; [| discriminate].
  destruct (chat_completions_create svc (calls w1) _); [| discriminate].
  intros [= <- <-]. exists ctx. simpl. rewrite <- app_assoc. reflexivity.
Qed.

Lemma nelement_nonempty (E : tensor) (w : world) :
  concat E ≠ [] → ∃ n, nelement (VTensor E) w = (Ok n, w) ∧ (n =? 0) = false.
Proof.
  intros HE. exists (Z.of_nat (length (concat E))). split; [reflexivity |].
  apply Z.eqb_neq. destruct (concat E); [congruence | simpl; lia].
Qed.

Lemma get_context_embedding_failure (q : string) (E : tensor) (C : value)
    (k : Z) (w : world) :
  concat E ≠ [] →
  ollama_embeddings svc (calls w) "nomic-embed-text" q = None →
  get_context svc q (VTensor E) C k w =
  (Raise EmbeddingServiceError,
   World (messages w) (calls w ++ [EmbeddingsCall "nomic-embed-text" q])).
Proof.
  intros HE Hemb. unfold get_context. rewrite bind_run.
  destruct (nelement_nonempty E w HE) as (n & -> & ->).
  rewrite bind_run. unfold embeddings. rewrite !bind_run. simpl.
  rewrite Hemb. reflexivity.
Qed.

(** *** How retrieval ends before it reaches the store *)

Lemma rewriting_single_turn (G' : namespace) (user_input : string) (t : turn)
    (w : world) :
  rewriting svc G' user_input [t] w = (Ok user_input, w).
Proof. reflexivity. Qed.

Lemma rewriting_unbound_model (G' : namespace) (user_input : string)
    (h : list turn) (w : world) :
  (1 < length h)%nat →
  G' !! "ollama_model" = None →
  rewriting svc G' user_input h w = (Raise (NameError "ollama_model"), w).
Proof.
  intros Hh HG. unfold rewriting.
  apply Nat.ltb_lt in Hh. rewrite Hh.
  rewrite bind_run. unfold load_global. rewrite HG. reflexivity.
Qed.

Lemma retrieval_rewriting_raises (G' : namespace) (user_input : string)
    (e : exn) (w w1 : world) :
  rewriting svc G' user_input (messages w) w = (Raise e, w1) →
  retrieval svc G' user_input w = (Raise e, w1).
Proof.
  intros Hrw. unfold retrieval. rewrite bind_run. simpl.
  rewrite bind_run, Hrw. reflexivity.
Qed.

Lemma retrieval_unbound_vault_embeddings (G' : namespace) (rq user_input : string)
    (w w1 : world) :
  rewriting svc G' user_input (messages w) w = (Ok rq, w1) →
  G' !! "vault_embeddings" = None →
  retrieval svc G' user_input w = (Raise (NameError "vault_embeddings"), w1).
Proof.
  intros Hrw HG. unfold retrieval. rewrite bind_run. simpl.
  rewrite bind_run, Hrw. rewrite bind_run. unfold load_global.
  rewrite HG. reflexivity.
Qed.

(** *** The namespace of the script *)

Lemma module_globals_ollama_model (gui : string) :
  module_globals gui !! "ollama_model" = None.
Proof.
  unfold module_globals. rewrite lookup_insert_ne by discriminate.
  vm_compute. reflexivity.
Qed.

Lemma module_globals_vault_embeddings (gui : string) :
  module_globals gui !! "vault_embeddings" = None.
Proof.
  unfold module_globals. rewrite lookup_insert_ne by discriminate.
  vm_compute. reflexivity.
Qed.

(** C3 (what the code does). When [chat] completes, the handler leaves
    four new entries in the session history: the two [chat] appended (the
    user turn, with its content augmented, and the reply) and the two the
    handler appends to the same list afterwards (the raw user turn and the
    reply again). *)
Theorem on_user_input_records_turn_twice (user_input : string) (model : value)
    (top_k : Z) (w w' : world) (r : string) :
  user_input ≠ "" →
  chat svc G user_input model top_k w = (Ok r, w') →
  ∃ ctx,
    on_user_input svc G user_input model top_k w =
    (Ok (Some r),
     World (messages w ++ [Turn "user" (with_context user_input ctx);
                           Turn "assistant" r;
                           Turn "user" user_input;
                           Turn "assistant" r])
           (calls w')).
Proof.
  intros Hne Hchat.
  destruct (chat_Ok_messages _ _ _ _ _ _ Hchat) as [ctx Hm].
  exists ctx. unfold on_user_input.
  destruct (decide (user_input = "")) as [|_]; [contradiction |].
  rewrite bind_run, Hchat. unfold history_append. rewrite !bind_run. simpl.
  rewrite Hm, <- !app_assoc. reflexivity.
Qed.

(** C4 (as amended). When retrieval has given [ctx] and the completion
    call for the main reply fails, [chat] raises the error with the
    history ending in the user turn whose content is already the
    context-augmented text (the raw input only when [ctx] is empty); no
    assistant turn is recorded and the history holds nothing else that
    marks the turn. *)
Theorem chat_completion_failure_leaves_augmented_turn (user_input : string)
    (model : value) (top_k : Z) (w w1 : world) (ctx : list string) (m : value) :
  retrieval svc G user_input (appended user_input w) = (Ok ctx, w1) →
  G !! "ollama_model" = Some m →
  let hist := messages w ++ [Turn "user" (with_context user_input ctx)] in
  chat_completions_create svc (calls w1) (main_request m hist) = None →
  chat svc G user_input model top_k w =
  (Raise CompletionServiceError,
   World hist (calls w1 ++ [CompletionsCall (main_request m hist)]))
  ∧ (ctx = [] → with_context user_input ctx = user_input).
Proof.
  intros Hret Hmodel hist Hfail. split; [| intros ->; reflexivity].
  rewrite chat_run.
  pose proof (retrieval_messages user_input w) as Hm.
  rewrite Hret in *. simpl in Hm.
  rewrite (reply_run _ _ _ _ _ Hm). simpl. rewrite Hmodel.
  fold hist. rewrite Hfail. reflexivity.
Qed.

(** C9. When retrieval has given [ctx], the request [chat] sends for the
    reply carries the system instruction followed by the whole history,
    whose last entry is the user turn with content [with_context]: the
    raw input, the separator and the chunks joined by newlines when [ctx]
    is not empty, the raw input alone when it is; the history kept in the
    session starts with that same sequence. *)
Theorem chat_sends_system_then_augmented_history (user_input : string)
    (model : value) (top_k : Z) (w w1 : world) (ctx : list string) (m : value) :
  retrieval svc G user_input (appended user_input w) = (Ok ctx, w1) →
  G !! "ollama_model" = Some m →
  let hist := messages w ++ [Turn "user" (with_context user_input ctx)] in
  let out := chat svc G user_input model top_k w in
  calls out.2 =
    calls w1 ++ [CompletionsCall
                   (Request m (Turn "system" system_message :: hist) 2000 None None)]
  ∧ take (length hist) (messages out.2) = hist
  ∧ (ctx ≠ [] → with_context user_input ctx =
                user_input +:+ context_separator +:+ PyStr.join PyStr.nl ctx)
  ∧ (ctx = [] → with_context user_input ctx = user_input).
Proof.
  intros Hret Hmodel hist out.
  assert (Hout : calls out.2 = calls w1 ++ [CompletionsCall (main_request m hist)]
                 ∧ take (length hist) (messages out.2) = hist).
  { subst out. rewrite chat_run.
    pose proof (retrieval_messages user_input w) as Hm.
    rewrite Hret in *. simpl in Hm.
    rewrite (reply_run _ _ _ _ _ Hm). simpl. rewrite Hmodel. fold hist.
    destruct (chat_completions_create svc (calls w1) _); simpl.
    - split; [reflexivity |]. rewrite take_app_length. reflexivity.
    - split; [reflexivity |]. apply firstn_all. }
  destruct Hout as [Hcalls Hhist].
  repeat split; try assumption.
  - destruct ctx; [congruence | reflexivity].
  - intros ->. reflexivity.
Qed.

End PipelineFacts.

(** ** Ranking *)

#[global] Instance score_ge_total : Total score_ge.
Proof.
  intros [s1 i1] [s2 i2]. unfold score_ge. simpl.
  destruct (Qlt_le_dec s1 s2) as [Hlt|Hle]; [right | left].
  - apply Qlt_le_weak. assumption.
  - assumption.
Qed.

#[global] Instance score_ge_trans : Transitive score_ge.
Proof.
  intros p1 p2 p3 H12 H23. unfold score_ge in *.
  eapply Qle_trans; eassumption.
Qed.

Lemma elem_of_enumerate (scores : list Q) (s : Q) (i : nat) :
  (s, i) ∈ enumerate scores ↔ scores !! i = Some s.
Proof.
  unfold enumerate. split.
  - intros Hin. apply elem_of_lookup_zip_with in Hin as (j & x & y & Heq & Hx & Hy).
    injection Heq as -> ->.
    apply lookup_seq in Hy as [-> _]. assumption.
  - intros Hi. apply elem_of_lookup_zip_with. exists i, s, i. split; [reflexivity |]. split; [assumption |].
    apply lookup_seq. split; [reflexivity |]. eapply lookup_lt_Some. eassumption.
Qed.

Lemma ranking_Permutation (scores : list Q) : ranking scores ≡ₚ enumerate scores.
Proof. apply merge_sort_Permutation. Qed.

Lemma elem_of_ranking (scores : list Q) (s : Q) (i : nat) :
  (s, i) ∈ ranking scores ↔ scores !! i = Some s.
Proof. rewrite ranking_Permutation. apply elem_of_enumerate. Qed.

Lemma ranking_sorted (scores : list Q) : StronglySorted score_ge (ranking scores).
Proof. apply StronglySorted_merge_sort; apply _. Qed.

Lemma ranking_indices (scores : list Q) :
  (ranking scores).*2 ≡ₚ seq 0 (length scores).
Proof.
  rewrite ranking_Permutation. unfold enumerate.
  rewrite snd_zip; [reflexivity |]. rewrite length_seq. lia.
Qed.

Lemma length_ranking (scores : list Q) : length (ranking scores) = length scores.
Proof.
  rewrite <- (length_fmap snd), ranking_indices. apply length_seq.
Qed.

Section TopOfRanking.

Variables (scores : list Q) (m : nat).

Local Abbreviation top := (top_ranked scores m).

Lemma top_sorted : StronglySorted score_ge top.
Proof.
  pose proof (ranking_sorted scores) as Hs.
  rewrite <- (take_drop m (ranking scores)) in Hs.
  eapply StronglySorted_app_1_l. eassumption.
Qed.

Lemma top_scores (s : Q) (i : nat) : (s, i) ∈ top → scores !! i = Some s.
Proof.
  intros Hin. apply elem_of_ranking.
  apply elem_of_take in Hin as (j & Hj & _).
  eapply list_elem_of_lookup_2. eassumption.
Qed.

Lemma top_NoDup : NoDup top.*2.
Proof.
  unfold top_ranked. rewrite fmap_take.
  eapply sublist_NoDup; [| apply sublist_take].
  rewrite ranking_indices. apply NoDup_seq.
Qed.

Lemma top_dominates (s s' : Q) (i j : nat) :
  (s, i) ∈ top → scores !! j = Some s' → j ∉ top.*2 → (s' <= s)%Q.
Proof.
  intros Hi Hj Hout.
  apply elem_of_ranking in Hj.
  rewrite <- (take_drop m (ranking scores)) in Hj.
  apply elem_of_app in Hj as [Hj|Hj].
  - exfalso. apply Hout. apply list_elem_of_fmap. exists (s', j). auto.
  - pose proof (ranking_sorted scores) as Hs.
    rewrite <- (take_drop m (ranking scores)) in Hs.
    exact (StronglySorted_app_1_elem_of _ _ _ _ _ Hs Hi Hj).
Qed.

Lemma top_length : (m ≤ length scores)%nat → length top = m.
Proof. intros Hm. apply length_take_le. rewrite length_ranking. assumption. Qed.

Lemma top_all : (length scores ≤ m)%nat → top.*2 ≡ₚ seq 0 (length scores).
Proof.
  intros Hm. unfold top_ranked. rewrite take_ge by (rewrite length_ranking; assumption).
  apply ranking_indices.
Qed.

Lemma top_in_range (i : nat) : i ∈ top.*2 → (i < length scores)%nat.
Proof.
  intros Hi. apply list_elem_of_fmap in Hi as ([s j] & -> & Hin).
  eapply lookup_lt_Some, top_scores. eassumption.
Qed.

End TopOfRanking.

Lemma topk_run (scores : list Q) (k : Z) (w : world) :
  0 ≤ k ≤ Z.of_nat (length scores) →
  topk scores k w =
  (Ok ((top_ranked scores (Z.to_nat k)).*1,
       (top_ranked scores (Z.to_nat k)).*2), w).
Proof.
  intros [Hlo Hhi]. unfold topk.
  replace (k <? 0) with false by (symmetry; apply Z.ltb_ge; lia).
  replace (Z.of_nat (length scores) <? k) with false
    by (symmetry; apply Z.ltb_ge; lia).
  reflexivity.
Qed.

Lemma mapM_getitem_strip (content : list string) (idxs : list nat) (w : world) :
  (∀ i, i ∈ idxs → (i < length content)%nat) →
  mapM (getitem_strip (VList content)) idxs w = (Ok (stripped_chunks content idxs), w).
Proof.
  induction idxs as [|i idxs IH]; intros Hin; [reflexivity |].
  simpl. rewrite bind_run. simpl.
  destruct (lookup_lt_is_Some_2 content i) as [c Hc].
  { apply Hin. left. }
  rewrite Hc. simpl. rewrite bind_run, IH.
  - reflexivity.
  - intros j Hj. apply Hin. right. assumption.
Qed.

Lemma bind_fst_eq {A B} (m : M A) (f : A → M B) (w w' : world) :
  (m w).1 = (m w').1 → (∀ a, stateless (f a)) →
  ((m ≫= f) w).1 = ((m ≫= f) w').1.
Proof.
  intros Hm Hf. rewrite !bind_run.
  destruct (m w) as [r w1], (m w') as [r' w1']. simpl in Hm. subst r'.
  destruct r as [a|e]; [| reflexivity].
  rewrite (Hf a w1 w1'). reflexivity.
Qed.

Section Retrieval.

Context (svc : services).

(** C7. On a store with no stored embeddings (a tensor with no
    elements), [get_context] returns the empty list for every query,
    every content object and every [top_k]; the world is unchanged, so no
    embedding call was made and nothing was raised. *)
Theorem get_context_empty_store (q : string) (E : tensor) (C : value) (k : Z)
    (w : world) :
  concat E = [] →
  get_context svc q (VTensor E) C k w = (Ok [], w).
Proof.
  intros HE. unfold get_context. rewrite bind_run. simpl.
  rewrite HE. reflexivity.
Qed.

(** C8. On a store of [n] chunks that is not empty, for a requested
    [k ≥ 0], when the embedding call answers and the similarity gives one
    score per stored row, [get_context] returns the chunks (stripped) at
    the positions [top.*2] of a list [top] of (score, position) pairs
    such that: [top] has [min k n] entries; each pair carries the score
    of its position; the scores are in descending order; no position
    occurs twice; every position left out has a score no larger than
    each one taken; and when [k ≥ n] the positions are all of
    [0 .. n-1]. *)
Theorem get_context_top_k (q : string) (E : tensor) (content : list string)
    (k : Z) (w : world) (qe scores : list Q) :
  concat E ≠ [] →
  length content = length E →
  0 ≤ k →
  ollama_embeddings svc (calls w) "nomic-embed-text" q = Some qe →
  torch_cosine_similarity svc qe E = Some scores →
  length scores = length E →
  ∃ top : list (Q * nat),
    get_context svc q (VTensor E) (VList content) k w =
      (Ok (stripped_chunks content top.*2),
       World (messages w) (calls w ++ [EmbeddingsCall "nomic-embed-text" q]))
    ∧ Z.of_nat (length top) = Z.min k (Z.of_nat (length E))
    ∧ (∀ s i, (s, i) ∈ top → scores !! i = Some s ∧ (i < length E)%nat)
    ∧ StronglySorted score_ge top
    ∧ NoDup top.*2
    ∧ (∀ s i s' j, (s, i) ∈ top → scores !! j = Some s' → j ∉ top.*2 →
                   (s' <= s)%Q)
    ∧ (Z.of_nat (length E) ≤ k → top.*2 ≡ₚ seq 0 (length E)).
Proof.
  intros HE Hlen Hk Hemb Hcos Hscores.
  set (m := Z.to_nat (Z.min k (Z.of_nat (length scores)))).
  exists (top_ranked scores m).
  split; [| repeat split].
  - unfold get_context. rewrite bind_run.
    destruct (nelement_nonempty E w HE) as (n & -> & ->).
    rewrite bind_run. unfold embeddings at 1. rewrite !bind_run. simpl.
    rewrite Hemb. simpl. rewrite bind_run. simpl. rewrite Hcos. simpl.
    rewrite bind_run, topk_run by lia. simpl.
    apply mapM_getitem_strip.
    intros i Hi. apply top_in_range in Hi. lia.
  - rewrite top_length by lia. lia.
  - eapply top_scores. eassumption.
  - rewrite <- Hscores. eapply lookup_lt_Some, top_scores. eassumption.
  - apply top_sorted.
  - apply top_NoDup.
  - intros s i s' j. apply top_dominates.
  - intros Hall. rewrite <- Hscores. apply top_all. lia.
Qed.

(** C10. With an embedding service that answers as a fixed function of
    its input (the answer does not depend on what was called before),
    [get_context] on the same query, store and [top_k] gives the same
    outcome from any two worlds; in particular a second run, started
    where the first one ended, returns what the first returned. *)
Theorem get_context_deterministic (q : string) (E C : value) (k : Z) :
  (∀ tr tr' model prompt,
      ollama_embeddings svc tr model prompt =
      ollama_embeddings svc tr' model prompt) →
  (∀ w w', (get_context svc q E C k w).1 = (get_context svc q E C k w').1)
  ∧ (∀ w, (get_context svc q E C k (get_context svc q E C k w).2).1 =
          (get_context svc q E C k w).1).
Proof.
  intros Hfun.
  assert (Hany : ∀ w w', (get_context svc q E C k w).1 = (get_context svc q E C k w').1).
  { intros w w'. unfold get_context. rewrite !bind_run.
    rewrite (stateless_nelement E w w'), (stateless_nelement E w' w').
    destruct (nelement E w').1 as [n|e]; simpl; [| reflexivity].
    destruct (n =? 0); [reflexivity |].
    apply bind_fst_eq.
    - unfold embeddings. rewrite !bind_run. simpl.
      rewrite (Hfun (calls w) (calls w')).
      destruct (ollama_embeddings svc (calls w') _ _); reflexivity.
    - intros qe. apply stateless_bind; [auto with vault |]. intros sc.
      apply stateless_bind; [auto with vault |]. intros top.
      auto with vault. }
  split; [exact Hany |]. intros w. apply Hany.
Qed.

End Retrieval.

(** C1 (as amended). In the namespace the script builds, every call of
    [chat] stops at the first read of an unbound name, after the raw user
    turn has been appended and before any service is called: the name is
    [vault_embeddings] when the history is empty on entry (no rewriting
    takes place, and the call of [get_context] reads it first), and
    [ollama_model] when the history is not empty. No reply is produced,
    and the outcome does not depend on the [model] argument, in this
    namespace or any other. *)
Theorem chat_stops_at_unbound_name (svc : services) (gui user_input : string)
    (model : value) (top_k : Z) (w : world) :
  chat svc (module_globals gui) user_input model top_k w =
  (Raise (NameError (match messages w with
                     | [] => "vault_embeddings"
                     | _ :: _ => "ollama_model"
                     end)),
   World (messages w ++ [Turn "user" user_input]) (calls w))
  ∧ ∀ (G' : namespace) (model' : value),
      chat svc G' user_input model' top_k w = chat svc G' user_input model top_k w.
Proof.
  split; [| reflexivity].
  rewrite chat_run.
  destruct (messages w) as [|t h] eqn:Hw.
  - rewrite (retrieval_unbound_vault_embeddings _ _ user_input user_input
               (appended user_input w) (appended user_input w)).
    + unfold appended. rewrite Hw. reflexivity.
    + unfold appended at 1. unfold messages at 1. rewrite Hw.
      apply rewriting_single_turn.
    + apply module_globals_vault_embeddings.
  - rewrite (retrieval_rewriting_raises _ _ _ (NameError "ollama_model")
               (appended user_input w) (appended user_input w)).
    + unfold appended. rewrite Hw. reflexivity.
    + apply rewriting_unbound_model.
      * unfold appended, messages at 1. rewrite Hw, length_app. simpl. lia.
      * apply module_globals_ollama_model.
Qed.

(** ** The handler and the services on concrete data *)

(** C1 (the claim as stated fails). On the first turn of a session the
    history is empty on entry, no rewriting takes place, and [chat] stops
    at the read of [vault_embeddings]: the read of [ollama_model] is not
    reached. *)
Lemma chat_first_turn_stops_at_vault_embeddings :
  (chat Demo.svc (module_globals Demo.question) Demo.question
        Demo.selected_model 3 Demo.fresh_session).1
  = Raise (NameError "vault_embeddings")
  ∧ (chat Demo.svc (module_globals Demo.question) Demo.question
          Demo.selected_model 3 Demo.fresh_session).1
    ≠ Raise (NameError "ollama_model").
Proof. vm_compute. split; [reflexivity | discriminate]. Qed.

(** C2 (what the code does). With four chunks stored and [top_k = 1]
    requested, [chat] completes with three chunks in the user turn: the
    context is the one [get_context] gives for its default of 3, not the
    single chunk it gives for the requested 1. *)
Theorem chat_top_k_1_retrieves_three_chunks :
  chat Demo.svc Demo.globals Demo.question Demo.selected_model 1 Demo.fresh_session
  = (Ok "It is blue.",
     World [Turn "user" (with_context Demo.question ["delta"; "alpha"; "gamma"]);
            Turn "assistant" "It is blue."]
           [EmbeddingsCall "nomic-embed-text" Demo.question;
            CompletionsCall
              (main_request Demo.selected_model
                 [Turn "user" (with_context Demo.question ["delta"; "alpha"; "gamma"])])])
  ∧ (get_context Demo.svc Demo.question (VTensor Demo.vault_embeddings)
                 (VList Demo.vault_content) 1 Demo.fresh_session).1
    = Ok ["delta"]
  ∧ (get_context Demo.svc Demo.question (VTensor Demo.vault_embeddings)
                 (VList Demo.vault_content) get_context_default_top_k
                 Demo.fresh_session).1
    = Ok ["delta"; "alpha"; "gamma"].
Proof. vm_compute. split; [reflexivity |]. split; reflexivity. Qed.

Lemma on_user_input_records_turn_twice_witness :
  ∃ ctx,
    on_user_input Demo.svc Demo.globals Demo.question Demo.selected_model 3
                  Demo.fresh_session =
    (Ok (Some "It is blue."),
     World (messages Demo.fresh_session
            ++ [Turn "user" (with_context Demo.question ctx);
                Turn "assistant" "It is blue.";
                Turn "user" Demo.question;
                Turn "assistant" "It is blue."])
           (calls (chat Demo.svc Demo.globals Demo.question Demo.selected_model 3
                        Demo.fresh_session).2)).
Proof.
  apply (on_user_input_records_turn_twice Demo.svc Demo.globals Demo.question
           Demo.selected_model 3 Demo.fresh_session).
  - discriminate.
  - vm_compute. reflexivity.
Defined.

(** C4 (the claim as stated fails). With chunks retrieved and the
    completion service down, [chat] raises and leaves a history whose only
    entry is the user turn with the augmented text in place of the raw
    input; there is no assistant turn. *)
Lemma chat_completion_failure_overwrites_user_turn :
  let out := chat Demo.svc_completions_down Demo.globals Demo.question
                  Demo.selected_model 3 Demo.fresh_session in
  out.1 = Raise CompletionServiceError
  ∧ messages out.2 = [Turn "user" (with_context Demo.question Demo.context)]
  ∧ with_context Demo.question Demo.context ≠ Demo.question.
Proof.
  vm_compute. split; [reflexivity |]. split; [reflexivity | discriminate].
Qed.

Lemma chat_completion_failure_leaves_augmented_turn_witness :
  chat Demo.svc_completions_down Demo.globals Demo.question Demo.selected_model 3
       Demo.fresh_session =
  (Raise CompletionServiceError,
   World (messages Demo.fresh_session
          ++ [Turn "user" (with_context Demo.question Demo.context)])
         (calls Demo.after_retrieval
          ++ [CompletionsCall
                (main_request Demo.selected_model
                   (messages Demo.fresh_session
                    ++ [Turn "user" (with_context Demo.question Demo.context)]))]))
  ∧ (Demo.context = [] → with_context Demo.question Demo.context = Demo.question).
Proof.
  apply (chat_completion_failure_leaves_augmented_turn Demo.svc_completions_down
           Demo.globals Demo.question Demo.selected_model 3 Demo.fresh_session
           Demo.after_retrieval Demo.context Demo.selected_model).
  - vm_compute. reflexivity.
  - vm_compute. reflexivity.
  - reflexivity.
Defined.

Lemma chat_sends_system_then_augmented_history_witness :
  calls (chat Demo.svc Demo.globals Demo.question Demo.selected_model 3
              Demo.fresh_session).2 =
    calls Demo.after_retrieval
    ++ [CompletionsCall
          (Request Demo.selected_model
             (Turn "system" system_message
              :: messages Demo.fresh_session
                 ++ [Turn "user" (with_context Demo.question Demo.context)])
             2000 None None)]
  ∧ with_context Demo.question Demo.context =
    Demo.question +:+ context_separator +:+ PyStr.join PyStr.nl Demo.context.
Proof.
  destruct (chat_sends_system_then_augmented_history Demo.svc Demo.globals
              Demo.question Demo.selected_model 3 Demo.fresh_session
              Demo.after_retrieval Demo.context Demo.selected_model)
    as (Hcalls & _ & Hctx & _).
  - vm_compute. reflexivity.
  - vm_compute. reflexivity.
  - split; [exact Hcalls | apply Hctx; discriminate].
Defined.

(** C6 (the claim as stated fails). With the embedding service down and a
    store that is not empty, [chat] raises the embedding error; the only
    call made is the embedding call, so no reply was asked for. *)
Lemma chat_embedding_failure_gives_no_reply :
  let out := chat Demo.svc_embeddings_down Demo.globals Demo.question
                  Demo.selected_model 3 Demo.fresh_session in
  out.1 = Raise EmbeddingServiceError
  ∧ calls out.2 = [EmbeddingsCall "nomic-embed-text" Demo.question]
  ∧ ∀ r, out.1 ≠ Ok r.
Proof.
  vm_compute. split; [reflexivity |]. split; [reflexivity |].
  intros r. discriminate.
Qed.

Lemma get_context_empty_store_witness :
  get_context Demo.svc Demo.question (VTensor []) (VList []) 3 Demo.fresh_session
  = (Ok [], Demo.fresh_session).
Proof.
  apply (get_context_empty_store Demo.svc Demo.question [] (VList []) 3
           Demo.fresh_session).
  reflexivity.
Defined.

Lemma get_context_top_k_witness :
  ∃ top : list (Q * nat),
    get_context Demo.svc Demo.question (VTensor Demo.vault_embeddings)
                (VList Demo.vault_content) 10 Demo.fresh_session =
      (Ok (stripped_chunks Demo.vault_content top.*2), World [] [EmbeddingsCall "nomic-embed-text" Demo.question])
    ∧ Z.of_nat (length top) = 4
    ∧ StronglySorted score_ge top
    ∧ top.*2 ≡ₚ [0; 1; 2; 3]%nat.
Proof.
  destruct (get_context_top_k Demo.svc Demo.question Demo.vault_embeddings
              Demo.vault_content 10 Demo.fresh_session [1; 0]%Q [1; 0; 1; 2]%Q)
    as (top & Hrun & Hlen & _ & Hsorted & _ & _ & Hall).
  - discriminate.
  - reflexivity.
  - lia.
  - reflexivity.
  - vm_compute. reflexivity.
  - reflexivity.
  - exists top. split; [exact Hrun |]. split; [exact Hlen |].
    split; [exact Hsorted |]. apply Hall. simpl. lia.
Defined.

Lemma get_context_deterministic_witness :
  (∀ w w',
     (get_context Demo.svc Demo.question (VTensor Demo.vault_embeddings)
                  (VList Demo.vault_content) 3 w).1 =
     (get_context Demo.svc Demo.question (VTensor Demo.vault_embeddings)
                  (VList Demo.vault_content) 3 w').1)
  ∧ (∀ w,
       (get_context Demo.svc Demo.question (VTensor Demo.vault_embeddings)
                    (VList Demo.vault_content) 3
          (get_context Demo.svc Demo.question (VTensor Demo.vault_embeddings)
                       (VList Demo.vault_content) 3 w).2).1 =
       (get_context Demo.svc Demo.question (VTensor Demo.vault_embeddings)
                    (VList Demo.vault_content) 3 w).1).
Proof.
  apply (get_context_deterministic Demo.svc Demo.question
           (VTensor Demo.vault_embeddings) (VList Demo.vault_content) 3).
  intros tr tr' model prompt. reflexivity.
Defined.

(** A requested [k] below zero is not clamped: [torch.topk] refuses it. *)
Example get_context_negative_top_k :
  (get_context Demo.svc Demo.question (VTensor Demo.vault_embeddings)
               (VList Demo.vault_content) (-1) Demo.fresh_session).1
  = Raise RuntimeError.
Proof. vm_compute. reflexivity. Qed.

(** ** Ingestion *)

Section IngestionFacts.

Import Ingestion.

Context (tmp_name : gmap string string → string)
        (loader_load : loader → gmap string string → option (list document))
        (split_documents : Z → Z → list document → option (list document))
        (uuid4 : nat → string)
        (add_documents : list (string * document) → list document → list string →
                         option (list (string * document))).

(** C5 (as amended). The temporary copy is written at a path that was
    free. When [add_to_vector_store] returns, the disk is as it was
    before the call: the copy has been removed. When it raises (the
    loader, the splitter or the store fails), the disk still holds the
    copy, with the uploaded bytes, and is otherwise as before. *)
Theorem add_to_vector_store_temp_file (file : uploaded_file)
    (chunk_size chunk_overlap : Z) (v : vault) :
  fs v !! tmp_name (fs v) = None →
  let out := add_to_vector_store tmp_name loader_load split_documents uuid4
               add_documents (Some file) chunk_size chunk_overlap v in
  match out.1 with
  | Ok _ => fs out.2 = fs v
  | Raise _ => fs out.2 = <[tmp_name (fs v) := file_value file]> (fs v)
  end.
Proof.
  intros Hfree. unfold add_to_vector_store, I_bind, mbind, write_temp, load,
    of_option, draw_uuids, store_add, unlink, fail, mret, I_ret. simpl.
  destruct (loader_load _ _) as [data|]; simpl; [| reflexivity].
  destruct (split_documents _ _ _) as [chunked|]; simpl; [| reflexivity].
  destruct (add_documents _ _ _) as [c|]; simpl; [| reflexivity].
  apply delete_insert_id. assumption.
Qed.

End IngestionFacts.

(** C5 (the claim as stated fails). When the loader raises, the temporary
    copy of the upload is still on disk after [add_to_vector_store]. *)
Lemma add_to_vector_store_loader_failure_leaves_temp_file :
  let out := Ingestion.add_to_vector_store Demo.tmp_name Demo.loader_down
               Demo.split_documents Demo.uuid4 Demo.add_documents
               (Some Demo.upload) 256 100 Demo.empty_vault in
  out.1 = Raise LoadError
  ∧ Ingestion.fs out.2 !! "/tmp/tmpk1r9x2vd" = Some "The sky is blue".
Proof. vm_compute. split; reflexivity. Qed.

Lemma add_to_vector_store_temp_file_witness :
  Ingestion.fs
    (Ingestion.add_to_vector_store Demo.tmp_name Demo.loader_up
       Demo.split_documents Demo.uuid4 Demo.add_documents
       (Some Demo.upload) 256 100 Demo.empty_vault).2
  = Ingestion.fs Demo.empty_vault.
Proof.
  exact (add_to_vector_store_temp_file Demo.tmp_name Demo.loader_up
           Demo.split_documents Demo.uuid4 Demo.add_documents
           Demo.upload 256 100 Demo.empty_vault eq_refl).
Defined.

(** * Further properties of the code *)

(** ** Strings *)

Lemma string_length_append (a b : string) :
  String.length (a +:+ b) = (String.length a + String.length b)%nat.
Proof. induction a as [|c a IH]; simpl; [reflexivity | rewrite IH; reflexivity]. Qed.

Lemma lstrip_list_head (l : list ascii) :
  match PyStr.lstrip_list l with
  | [] => True
  | a :: _ => PyStr.is_whitespace a = false
  end.
Proof.
  induction l as [|a l IH]; simpl; [exact I |].
  destruct (PyStr.is_whitespace a) eqn:Ha; [exact IH | exact Ha].
Qed.

Lemma lstrip_list_id (l : list ascii) :
  match l with [] => True | a :: _ => PyStr.is_whitespace a = false end →
  PyStr.lstrip_list l = l.
Proof. destruct l as [|a l]; simpl; [reflexivity |]. intros ->. reflexivity. Qed.

Lemma lstrip_list_suffix (l : list ascii) :
  ∃ ws, l = ws ++ PyStr.lstrip_list l.
Proof.
  induction l as [|a l [ws IH]]; simpl.
  - exists []. reflexivity.
  - destruct (PyStr.is_whitespace a).
    + exists (a :: ws). simpl. rewrite <- IH. reflexivity.
    + exists []. reflexivity.
Qed.

Lemma strip_list_idempotent (l : list ascii) :
  let b := rev (PyStr.lstrip_list (rev (PyStr.lstrip_list l))) in
  rev (PyStr.lstrip_list (rev (PyStr.lstrip_list b))) = b.
Proof.
  intros b. set (a := PyStr.lstrip_list l) in *.
  assert (Hb : PyStr.lstrip_list b = b).
  { apply lstrip_list_id.
    destruct (lstrip_list_suffix (rev a)) as [ws Hws].
    apply (f_equal (@rev ascii)) in Hws.
    rewrite rev_involutive, rev_app_distr in Hws. fold b in Hws.
    pose proof (lstrip_list_head l) as Hhead. fold a in Hhead.
    destruct b as [|c b']; [exact I |].
    rewrite Hws in Hhead. exact Hhead. }
  rewrite Hb. subst b. rewrite rev_involutive.
  rewrite lstrip_list_id; [reflexivity |]. apply lstrip_list_head.
Qed.

Lemma strip_idempotent (s : string) : PyStr.strip (PyStr.strip s) = PyStr.strip s.
Proof.
  unfold PyStr.strip. rewrite list_ascii_of_string_of_list_ascii.
  rewrite strip_list_idempotent. reflexivity.
Qed.

(** X4. The content [chat] gives the user turn is the raw input exactly
    when no chunk was retrieved: with one chunk or more the text is
    longer than the input. *)
Theorem with_context_raw_iff_no_context (user_input : string) (ctx : list string) :
  with_context user_input ctx = user_input ↔ ctx = [].
Proof.
  split; [| intros ->; reflexivity].
  destruct ctx as [|c ctx]; [reflexivity |]. intros Heq.
  apply (f_equal String.length) in Heq. unfold with_context in Heq.
  rewrite !string_length_append in Heq.
  change (String.length context_separator) with 20%nat in Heq. lia.
Qed.

(** ** rewrite_query *)

Lemma dict_get_missing (d : pydict) (k : string) (w : world) :
  k ∉ d.*1 → dict_get d k w = (Raise (KeyError k), w).
Proof.
  induction d as [|[k' v] d IH]; simpl; intros Hk; [reflexivity |].
  destruct (decide (k' = k)) as [->|Hne].
  - exfalso. apply Hk. left.
  - apply IH. intros Hin. apply Hk. right. assumption.
Qed.

Lemma dict_get_Ok (d : pydict) (k v : string) (w w' : world) :
  dict_get d k w = (Ok v, w') → (k, v) ∈ d ∧ w' = w.
Proof.
  induction d as [|[k' v'] d IH]; simpl; [discriminate |].
  destruct (decide (k' = k)) as [->|Hne].
  - intros [= -> ->]. split; [left | reflexivity].
  - intros H. destruct (IH H) as [Hin ->]. split; [right; assumption | reflexivity].
Qed.

Lemma last_two_app {A} (h : list A) (a b : A) : last_two (h ++ [a; b]) = [a; b].
Proof.
  unfold last_two. rewrite length_app. simpl.
  replace (length h + 2 - 2)%nat with (length h) by lia.
  apply drop_app_length.
Qed.

Section RewriteQueryFacts.

Context (svc : services).

Lemma rewrite_query_run (j : json_text) (h : list turn) (m : value)
    (user_input : string) (w : world) :
  dict_get (json_loads j) "Query" w = (Ok user_input, w) →
  rewrite_query svc j h m w =
  let log' := calls w ++ [CompletionsCall (rewrite_request m user_input h)] in
  match chat_completions_create svc (calls w) (rewrite_request m user_input h) with
  | Some r =>
      (Ok (json_dumps [("Rewritten Query", PyStr.strip r)]), World (messages w) log')
  | None => (Raise CompletionServiceError, World (messages w) log')
  end.
Proof.
  intros Hget. unfold rewrite_query. rewrite bind_run, Hget.
  unfold completions. rewrite !bind_run. simpl. fold (rewrite_request m user_input h).
  destruct (chat_completions_create svc (calls w) _); reflexivity.
Qed.

(** X1. Only the last two turns of the history reach the rewriter: on a
    history that ends with the turns [a] and [b], [rewrite_query] does
    what it does on the history [[a; b]], whatever came before them. *)
Theorem rewrite_query_reads_last_two_turns (j : json_text) (h : list turn)
    (a b : turn) (m : value) (w : world) :
  rewrite_query svc j (h ++ [a; b]) m w = rewrite_query svc j [a; b] m w.
Proof.
  unfold rewrite_query. apply bind_ext. intros user_input w'.
  rewrite last_two_app. reflexivity.
Qed.

(** X2. When the decoded input has no ["Query"] key, [rewrite_query]
    raises the KeyError for it before anything is sent: the world is as
    it was. *)
Theorem rewrite_query_missing_query_key (j : json_text) (h : list turn)
    (m : value) (w : world) :
  "Query" ∉ (json_loads j).*1 →
  rewrite_query svc j h m w = (Raise (KeyError "Query"), w).
Proof.
  intros Hk. unfold rewrite_query. rewrite bind_run.
  rewrite (dict_get_missing _ _ _ Hk). reflexivity.
Qed.

(** X3. When [rewrite_query] returns, it has sent exactly one request,
    the one built from the value under ["Query"] and the history (one
    system message, max_tokens 200, n 1, temperature 0.1); the history
    is untouched; and what it returns encodes a dict with the single key
    ["Rewritten Query"] whose value has no white space left to strip at
    either end. *)
Theorem rewrite_query_returns_stripped_query (j j' : json_text) (h : list turn)
    (m : value) (w w' : world) :
  rewrite_query svc j h m w = (Ok j', w') →
  ∃ user_input rq,
    ("Query", user_input) ∈ json_loads j
    ∧ json_loads j' = [("Rewritten Query", rq)]
    ∧ PyStr.strip rq = rq
    ∧ w' = World (messages w)
                 (calls w ++ [CompletionsCall (rewrite_request m user_input h)]).
Proof.
  intros Hrun.
  destruct (dict_get (json_loads j) "Query" w) as [[user_input|e] w1] eqn:Hget.
  - destruct (dict_get_Ok _ _ _ _ _ Hget) as [Hin ->].
    rewrite (rewrite_query_run _ _ _ _ _ Hget) in Hrun. simpl in Hrun.
    destruct (chat_completions_create svc (calls w) _) as [r|]; [| discriminate].
    injection Hrun as <- <-.
    exists user_input, (PyStr.strip r). split; [assumption |].
    split; [reflexivity |]. split; [apply strip_idempotent | reflexivity].
  - unfold rewrite_query in Hrun. rewrite bind_run, Hget in Hrun. discriminate.
Qed.

End RewriteQueryFacts.

(** ** get_context *)

Lemma mapM_getitem_strip_out_of_range (content : list string) (idxs : list nat)
    (w : world) :
  (∃ i, i ∈ idxs ∧ (length content ≤ i)%nat) →
  mapM (getitem_strip (VList content)) idxs w = (Raise IndexError, w).
Proof.
  induction idxs as [|i0 idxs IH]; intros (i & Hin & Hout).
  - inversion Hin.
  - simpl. rewrite bind_run. simpl.
    destruct (content !! i0) as [c|] eqn:Hc; [| reflexivity].
    simpl. rewrite bind_run, IH; [reflexivity |].
    exists i. split; [| assumption].
    apply elem_of_cons in Hin as [->|Hin]; [| assumption].
    apply lookup_lt_Some in Hc. lia.
Qed.

Lemma getitem_strip_Ok (C : value) (i : nat) (c : string) (w w' : world) :
  getitem_strip C i w = (Ok c, w') → PyStr.strip c = c.
Proof.
  destruct C as [s|t|l|x]; simpl.
  - destruct (_ !! i); [| discriminate]. intros [= <- _]. apply strip_idempotent.
  - destruct (_ !! i); discriminate.
  - destruct (_ !! i); [| discriminate]. intros [= <- _]. apply strip_idempotent.
  - discriminate.
Qed.

Lemma mapM_getitem_strip_Ok (C : value) (idxs : list nat) (res : list string)
    (w w' : world) :
  mapM (getitem_strip C) idxs w = (Ok res, w') →
  Forall (λ c, PyStr.strip c = c) res.
Proof.
  revert res w w'. induction idxs as [|i idxs IH]; intros res w w'; simpl.
  - intros [= <- _]. constructor.
  - rewrite bind_run.
    destruct (getitem_strip C i w) as [[c|e] w1] eqn:Hc; [| discriminate].
    rewrite bind_run.
    destruct (mapM (getitem_strip C) idxs w1) as [[cs|e] w2] eqn:Hcs; [| discriminate].
    intros [= <- _]. constructor.
    + eapply getitem_strip_Ok. eassumption.
    + eapply IH. eassumption.
Qed.

Section GetContextFacts.

Context (svc : services).

(** The world after the one embedding call [get_context] makes. *)
Local Abbreviation embedded q w :=
  (World (messages w) (calls w ++ [EmbeddingsCall "nomic-embed-text" q])).

Lemma embeddings_run (model prompt : string) (w : world) :
  embeddings svc model prompt w =
  match ollama_embeddings svc (calls w) model prompt with
  | Some e =>
      (Ok e, World (messages w) (calls w ++ [EmbeddingsCall model prompt]))
  | None =>
      (Raise EmbeddingServiceError,
       World (messages w) (calls w ++ [EmbeddingsCall model prompt]))
  end.
Proof.
  unfold embeddings. rewrite !bind_run. simpl.
  destruct (ollama_embeddings svc (calls w) model prompt); reflexivity.
Qed.

Lemma get_context_scored (q : string) (E : tensor) (C : value) (k : Z)
    (w : world) (qe scores : list Q) :
  concat E ≠ [] →
  ollama_embeddings svc (calls w) "nomic-embed-text" q = Some qe →
  torch_cosine_similarity svc qe E = Some scores →
  get_context svc q (VTensor E) C k w =
  (top ← topk scores (Z.min k (Z.of_nat (length scores)));
   mapM (getitem_strip C) top.2) (embedded q w).
Proof.
  intros HE Hemb Hcos. unfold get_context. rewrite bind_run.
  destruct (nelement_nonempty E w HE) as (n & -> & ->).
  rewrite bind_run. unfold embeddings at 1. rewrite !bind_run. simpl.
  rewrite Hemb. simpl. rewrite bind_run. simpl. rewrite Hcos. reflexivity.
Qed.

Lemma get_context_tail_stateless (C : value) (k : Z) (qe : list Q) (E : value) :
  stateless (cos_scores ← cosine_similarity svc qe E;
             top ← topk cos_scores (Z.min k (Z.of_nat (length cos_scores)));
             mapM (getitem_strip C) top.2).
Proof.
  apply stateless_bind; [auto with vault |]. intros sc.
  apply stateless_bind; [auto with vault |]. intros top.
  auto with vault.
Qed.

(** X5. A requested [k] below zero is not clamped to anything: on a
    store that is not empty, once the query is embedded and scored,
    [torch.topk] refuses the negative [k] and [get_context] raises its
    RuntimeError, after the embedding call. *)
Theorem get_context_negative_top_k_raises (q : string) (E : tensor) (C : value)
    (k : Z) (w : world) (qe scores : list Q) :
  concat E ≠ [] →
  ollama_embeddings svc (calls w) "nomic-embed-text" q = Some qe →
  torch_cosine_similarity svc qe E = Some scores →
  k < 0 →
  get_context svc q (VTensor E) C k w = (Raise RuntimeError, embedded q w).
Proof.
  intros HE Hemb Hcos Hk.
  rewrite (get_context_scored _ _ _ _ _ _ _ HE Hemb Hcos), bind_run.
  unfold topk.
  replace (Z.min k (Z.of_nat (length scores)) <? 0) with true
    by (symmetry; apply Z.ltb_lt; lia).
  reflexivity.
Qed.

(** X6. The texts are looked up by position in a list that is separate
    from the embeddings: when that list is shorter than the number of
    stored rows and all rows are asked for, [get_context] raises
    IndexError instead of returning the chunks it has. *)
Theorem get_context_short_content_raises (q : string) (E : tensor)
    (content : list string) (k : Z) (w : world) (qe scores : list Q) :
  concat E ≠ [] →
  ollama_embeddings svc (calls w) "nomic-embed-text" q = Some qe →
  torch_cosine_similarity svc qe E = Some scores →
  length scores = length E →
  (length content < length E)%nat →
  Z.of_nat (length E) ≤ k →
  get_context svc q (VTensor E) (VList content) k w =
  (Raise IndexError, embedded q w).
Proof.
  intros HE Hemb Hcos Hlen Hshort Hk.
  rewrite (get_context_scored _ _ _ _ _ _ _ HE Hemb Hcos), bind_run.
  rewrite topk_run by lia. simpl.
  apply mapM_getitem_strip_out_of_range.
  exists (length content). split; [| lia].
  rewrite top_all by lia. apply elem_of_seq. lia.
Qed.

(** X7. A store that holds one chunk returns that chunk, stripped, for
    every query and every requested [k] of one or more. *)
Theorem get_context_single_chunk (q : string) (row : list Q) (c : string)
    (k : Z) (w : world) (qe : list Q) (s : Q) :
  row ≠ [] →
  ollama_embeddings svc (calls w) "nomic-embed-text" q = Some qe →
  torch_cosine_similarity svc qe [row] = Some [s] →
  1 ≤ k →
  get_context svc q (VTensor [row]) (VList [c]) k w =
  (Ok [PyStr.strip c], embedded q w).
Proof.
  intros Hrow Hemb Hcos Hk.
  assert (HE : concat [row] ≠ []) by (simpl; rewrite app_nil_r; assumption).
  rewrite (get_context_scored _ _ _ _ _ _ _ HE Hemb Hcos), bind_run.
  rewrite topk_run by (simpl; lia). simpl.
  replace (Z.to_nat (Z.min k (Z.of_nat 1))) with 1%nat by lia. reflexivity.
Qed.

(** X8. Whatever [get_context] returns has been through [str.strip()]:
    no returned chunk has white space left to strip at either end. *)
Theorem get_context_returns_stripped_chunks (q : string) (E C : value) (k : Z)
    (w w' : world) (res : list string) :
  get_context svc q E C k w = (Ok res, w') →
  Forall (λ c, PyStr.strip c = c) res.
Proof.
  unfold get_context. rewrite bind_run.
  destruct (nelement E w) as [[n|e] w1]; [| discriminate].
  destruct (n =? 0).
  { intros [= <- _]. constructor. }
  rewrite bind_run.
  destruct (embeddings svc "nomic-embed-text" q w1) as [[qe|e] w2]; [| discriminate].
  rewrite bind_run.
  destruct (cosine_similarity svc qe E w2) as [[sc|e] w3]; [| discriminate].
  rewrite bind_run.
  destruct (topk sc _ w3) as [[top|e] w4]; [| discriminate].
  apply mapM_getitem_strip_Ok.
Qed.

(** X9. [get_context] talks to the outside at most once, and only to
    the embedding service: for every input and every outcome the log of
    calls is either unchanged or longer by the single call
    [ollama.embeddings(model='nomic-embed-text', prompt=q)]; the
    conversation history is never touched. *)
Theorem get_context_calls_embeddings_at_most_once (q : string) (E C : value)
    (k : Z) (w : world) :
  let out := get_context svc q E C k w in
  (calls out.2 = calls w
   ∨ calls out.2 = calls w ++ [EmbeddingsCall "nomic-embed-text" q])
  ∧ messages out.2 = messages w.
Proof.
  intros out. split; [| apply keeps_get_context].
  subst out. unfold get_context. rewrite bind_run.
  rewrite (stateless_nelement E w w).
  destruct (nelement E w).1 as [n|e]; cbv beta iota; [| left; reflexivity].
  destruct (n =? 0); [left; reflexivity |].
  rewrite bind_run, embeddings_run.
  destruct (ollama_embeddings svc (calls w) _ _) as [qe|]; cbv beta iota;
    [| right; reflexivity].
  rewrite (get_context_tail_stateless C k qe E _ w). right. reflexivity.
Qed.

End GetContextFacts.

(** ** chat *)

Lemma calls_at_most_weaken {A} (n n' : nat) (m : M A) :
  calls_at_most n m → (n ≤ n')%nat → calls_at_most n' m.
Proof.
  intros Hm Hn w. destruct (Hm w) as (l & Hl & Hlen).
  exists l. split; [assumption | lia].
Qed.

Lemma calls_at_most_bind {A B} (n k : nat) (m : M A) (f : A → M B) :
  calls_at_most n m → (∀ a, calls_at_most k (f a)) →
  calls_at_most (n + k) (m ≫= f).
Proof.
  intros Hm Hf w. rewrite bind_run.
  destruct (Hm w) as (l1 & Hl1 & Hlen1).
  destruct (m w) as [[a|e] w1]; simpl in *.
  - destruct (Hf a w1) as (l2 & Hl2 & Hlen2).
    exists (l1 ++ l2). rewrite Hl2, Hl1, app_assoc, length_app.
    split; [reflexivity | lia].
  - exists l1. split; [assumption | lia].
Qed.

Lemma calls_at_most_stateless {A} (m : M A) : stateless m → calls_at_most 0 m.
Proof.
  intros Hm w. exists []. rewrite (Hm w w), app_nil_r. split; [reflexivity | simpl; lia].
Qed.

Lemma calls_at_most_history_append (t : turn) : calls_at_most 0 (history_append t).
Proof. intros w. exists []. rewrite app_nil_r. split; [reflexivity | simpl; lia]. Qed.

Lemma calls_at_most_get_messages : calls_at_most 0 get_messages.
Proof. intros w. exists []. rewrite app_nil_r. split; [reflexivity | simpl; lia]. Qed.

Lemma calls_at_most_history_set_last_content (c : string) :
  calls_at_most 0 (history_set_last_content c).
Proof.
  intros w. exists []. rewrite app_nil_r. split; [| simpl; lia].
  unfold history_set_last_content. destruct (messages w); reflexivity.
Qed.

Lemma calls_at_most_embeddings (svc : services) (model prompt : string) :
  calls_at_most 1 (embeddings svc model prompt).
Proof.
  intros w. exists [EmbeddingsCall model prompt]. rewrite embeddings_run.
  split; [| simpl; lia].
  destruct (ollama_embeddings svc (calls w) model prompt); reflexivity.
Qed.

Lemma completions_run (svc : services) (r : completion_request) (w : world) :
  completions svc r w =
  match chat_completions_create svc (calls w) r with
  | Some s => (Ok s, World (messages w) (calls w ++ [CompletionsCall r]))
  | None =>
      (Raise CompletionServiceError,
       World (messages w) (calls w ++ [CompletionsCall r]))
  end.
Proof.
  unfold completions. rewrite !bind_run. simpl.
  destruct (chat_completions_create svc (calls w) r); reflexivity.
Qed.

Lemma calls_at_most_completions (svc : services) (r : completion_request) :
  calls_at_most 1 (completions svc r).
Proof.
  intros w. exists [CompletionsCall r]. rewrite completions_run.
  split; [| simpl; lia].
  destruct (chat_completions_create svc (calls w) r); reflexivity.
Qed.

Lemma calls_at_most_get_context (svc : services) (q : string) (E C : value) (k : Z) :
  calls_at_most 1 (get_context svc q E C k).
Proof.
  unfold get_context.
  apply (calls_at_most_bind 0 1); [apply calls_at_most_stateless; auto with vault |].
  intros n. destruct (n =? 0).
  { eapply calls_at_most_weaken;
      [apply calls_at_most_stateless; auto with vault | lia]. }
  apply (calls_at_most_bind 1 0); [apply calls_at_most_embeddings |].
  intros qe. apply calls_at_most_stateless, get_context_tail_stateless.
Qed.

Lemma calls_at_most_rewrite_query (svc : services) (j : json_text) (h : list turn)
    (m : value) :
  calls_at_most 1 (rewrite_query svc j h m).
Proof.
  unfold rewrite_query.
  apply (calls_at_most_bind 0 1); [apply calls_at_most_stateless; auto with vault |].
  intros user_input.
  apply (calls_at_most_bind 1 0); [apply calls_at_most_completions |].
  intros r. apply calls_at_most_stateless. auto with vault.
Qed.

Lemma calls_at_most_rewriting (svc : services) (G : namespace) (ui : string)
    (h : list turn) :
  calls_at_most 1 (rewriting svc G ui h).
Proof.
  unfold rewriting. destruct (1 <? length h)%nat.
  - apply (calls_at_most_bind 0 1); [apply calls_at_most_stateless; auto with vault |].
    intros m.
    apply (calls_at_most_bind 1 0); [apply calls_at_most_rewrite_query |].
    intros j. apply calls_at_most_stateless. auto with vault.
  - eapply calls_at_most_weaken;
      [apply calls_at_most_stateless; auto with vault | lia].
Qed.

Lemma calls_at_most_retrieval (svc : services) (G : namespace) (ui : string) :
  calls_at_most 2 (retrieval svc G ui).
Proof.
  unfold retrieval.
  apply (calls_at_most_bind 0 2); [apply calls_at_most_get_messages |]. intros h.
  apply (calls_at_most_bind 1 1); [apply calls_at_most_rewriting |]. intros rq.
  apply (calls_at_most_bind 0 1); [apply calls_at_most_stateless; auto with vault |].
  intros ve.
  apply (calls_at_most_bind 0 1); [apply calls_at_most_stateless; auto with vault |].
  intros vc. apply calls_at_most_get_context.
Qed.

Lemma calls_at_most_reply (svc : services) (G : namespace) (ui : string)
    (ctx : list string) :
  calls_at_most 1 (reply svc G ui ctx).
Proof.
  unfold reply.
  apply (calls_at_most_bind 0 1); [apply calls_at_most_history_set_last_content |].
  intros _.
  apply (calls_at_most_bind 0 1); [apply calls_at_most_get_messages |]. intros h.
  apply (calls_at_most_bind 0 1); [apply calls_at_most_stateless; auto with vault |].
  intros m.
  apply (calls_at_most_bind 1 0); [apply calls_at_most_completions |]. intros r.
  apply (calls_at_most_bind 0 0); [apply calls_at_most_history_append |]. intros _.
  apply calls_at_most_stateless. auto with vault.
Qed.

Lemma get_context_no_elements (svc : services) (q : string) (E : tensor) (C : value)
    (k : Z) (w : world) :
  concat E = [] → get_context svc q (VTensor E) C k w = (Ok [], w).
Proof.
  intros HE. unfold get_context. rewrite bind_run. simpl. rewrite HE. reflexivity.
Qed.

Lemma get_context_calls_nonempty (svc : services) (q : string) (E : tensor)
    (C : value) (k : Z) (w : world) :
  concat E ≠ [] →
  calls (get_context svc q (VTensor E) C k w).2 =
  calls w ++ [EmbeddingsCall "nomic-embed-text" q].
Proof.
  intros HE. unfold get_context. rewrite bind_run.
  destruct (nelement_nonempty E w HE) as (n & -> & ->).
  rewrite bind_run, embeddings_run.
  destruct (ollama_embeddings svc (calls w) _ _) as [qe|]; [| reflexivity].
  rewrite (get_context_tail_stateless svc C k qe (VTensor E) _ w). reflexivity.
Qed.

Section ChatFacts.

Context (svc : services) (G : namespace).

Lemma retrieval_run (user_input rq : string) (VE VC : value) (w w1 : world) :
  rewriting svc G user_input (messages w) w = (Ok rq, w1) →
  G !! "vault_embeddings" = Some VE →
  G !! "vault_content" = Some VC →
  retrieval svc G user_input w =
  get_context svc rq VE VC get_context_default_top_k w1.
Proof.
  intros Hrw HE HC. unfold retrieval. rewrite bind_run. simpl.
  rewrite bind_run, Hrw. unfold load_global.
  rewrite bind_run, HE. simpl. rewrite bind_run, HC. reflexivity.
Qed.

Lemma rewriting_run (user_input : string) (h : list turn) (m : value) (w : world) :
  (1 < length h)%nat →
  G !! "ollama_model" = Some m →
  rewriting svc G user_input h w =
  let log' := calls w ++ [CompletionsCall (rewrite_request m user_input h)] in
  match chat_completions_create svc (calls w) (rewrite_request m user_input h) with
  | Some r => (Ok (PyStr.strip r), World (messages w) log')
  | None => (Raise CompletionServiceError, World (messages w) log')
  end.
Proof.
  intros Hh Hm. unfold rewriting. apply Nat.ltb_lt in Hh. rewrite Hh.
  rewrite bind_run. unfold load_global. rewrite Hm. simpl.
  rewrite bind_run, (rewrite_query_run svc _ _ _ user_input) by reflexivity.
  simpl. destruct (chat_completions_create svc (calls w) _); reflexivity.
Qed.

Lemma chat_history_outcome (user_input : string) (model : value) (top_k : Z)
    (w : world) :
  ∃ c, messages (chat svc G user_input model top_k w).2 =
       messages w ++ Turn "user" c ::
         match (chat svc G user_input model top_k w).1 with
         | Ok r => [Turn "assistant" r]
         | Raise _ => []
         end.
Proof.
  rewrite chat_run.
  pose proof (retrieval_messages svc G user_input w) as Hm.
  destruct (retrieval svc G user_input (appended user_input w)) as [[ctx|e] w1];
    simpl in Hm.
  - rewrite (reply_run _ _ _ _ _ _ _ Hm). simpl.
    exists (with_context user_input ctx).
    destruct (G !! "ollama_model") as [m|]; [| reflexivity].
    destruct (chat_completions_create svc (calls w1) _); simpl;
      [rewrite <- app_assoc |]; reflexivity.
  - exists user_input. simpl. assumption.
Qed.

(** X10. Whatever happens in a turn, [chat] leaves the earlier history
    as it was and adds one user turn to it; the assistant turn follows
    exactly when [chat] returns, and its content is the value
    returned. When [chat] raises, the user turn is the last entry. *)
Theorem chat_appends_user_turn_then_reply (user_input : string) (model : value)
    (top_k : Z) (w : world) :
  ∃ c, messages (chat svc G user_input model top_k w).2 =
       messages w ++ Turn "user" c ::
         match (chat svc G user_input model top_k w).1 with
         | Ok r => [Turn "assistant" r]
         | Raise _ => []
         end.
Proof. apply chat_history_outcome. Qed.

(** X11. First turn on an empty store: with an empty history on entry
    and a store without elements, [chat] makes one call in all, the
    completion request carrying the system instruction and the raw user
    input; the reply is appended when the call answers, and the error is
    raised with the raw user turn in the history when it does not. *)
Theorem chat_first_turn_empty_store (user_input : string) (model : value)
    (top_k : Z) (w : world) (m C : value) (E : tensor) :
  messages w = [] →
  G !! "ollama_model" = Some m →
  G !! "vault_embeddings" = Some (VTensor E) →
  G !! "vault_content" = Some C →
  concat E = [] →
  let req := Request m [Turn "system" system_message; Turn "user" user_input]
                     2000 None None in
  chat svc G user_input model top_k w =
  match chat_completions_create svc (calls w) req with
  | Some r =>
      (Ok r, World [Turn "user" user_input; Turn "assistant" r]
                   (calls w ++ [CompletionsCall req]))
  | None =>
      (Raise CompletionServiceError,
       World [Turn "user" user_input] (calls w ++ [CompletionsCall req]))
  end.
Proof.
  intros Hw Hm HE HC Hempty req.
  rewrite chat_run.
  rewrite (retrieval_run user_input user_input (VTensor E) C
             (appended user_input w) (appended user_input w));
    [| unfold appended, messages at 1; rewrite Hw; reflexivity | assumption..].
  rewrite get_context_no_elements by assumption.
  rewrite (reply_run svc G user_input [] (appended user_input w) [] (Turn "user" user_input))
    by (simpl; rewrite Hw; reflexivity).
  simpl. rewrite Hm.
  change (main_request m [Turn "user" user_input]) with req.
  destruct (chat_completions_create svc (calls w) req); reflexivity.
Qed.

(** X12. First turn on a store that is not empty: no rewriting takes
    place, and the first call [chat] makes is the embedding of the raw
    user input. *)
Theorem chat_first_turn_embeds_raw_input (user_input : string) (model : value)
    (top_k : Z) (w : world) (C : value) (E : tensor) :
  messages w = [] →
  G !! "vault_embeddings" = Some (VTensor E) →
  G !! "vault_content" = Some C →
  concat E ≠ [] →
  ∃ l, calls (chat svc G user_input model top_k w).2 =
       calls w ++ EmbeddingsCall "nomic-embed-text" user_input :: l.
Proof.
  intros Hw HE HC Hne.
  rewrite chat_run.
  rewrite (retrieval_run user_input user_input (VTensor E) C
             (appended user_input w) (appended user_input w));
    [| unfold appended, messages at 1; rewrite Hw; reflexivity | assumption..].
  pose proof (get_context_calls_nonempty svc user_input E C
                get_context_default_top_k (appended user_input w) Hne) as Hcalls.
  destruct (get_context svc user_input (VTensor E) C get_context_default_top_k
              (appended user_input w)) as [[ctx|e] w1]; simpl in *.
  - destruct (calls_at_most_reply svc G user_input ctx w1) as (l & Hl & _).
    exists l. rewrite Hl, Hcalls, <- app_assoc. reflexivity.
  - exists []. assumption.
Qed.

(** X13. Later turns: with a history that is not empty on entry and
    the rewriter answering [r], the first call of [chat] is the rewrite
    request, whose prompt is built from the last two entries of the
    history after the new user turn was appended (so the new turn itself
    is one of the two), and the second call is the embedding of [r]
    stripped, not of the user input. *)
Theorem chat_later_turn_embeds_rewritten_query (user_input : string)
    (model : value) (top_k : Z) (w : world) (m C : value) (E : tensor) (r : string) :
  messages w ≠ [] →
  G !! "ollama_model" = Some m →
  G !! "vault_embeddings" = Some (VTensor E) →
  G !! "vault_content" = Some C →
  concat E ≠ [] →
  let req := rewrite_request m user_input (messages w ++ [Turn "user" user_input]) in
  chat_completions_create svc (calls w) req = Some r →
  ∃ l, calls (chat svc G user_input model top_k w).2 =
       calls w ++ CompletionsCall req
               :: EmbeddingsCall "nomic-embed-text" (PyStr.strip r) :: l.
Proof.
  intros Hw Hm HE HC Hne req Hr.
  rewrite chat_run.
  set (w1 := World (messages w ++ [Turn "user" user_input])
                   (calls w ++ [CompletionsCall req])).
  assert (Hrw : rewriting svc G user_input (messages (appended user_input w))
                  (appended user_input w) = (Ok (PyStr.strip r), w1)).
  { rewrite (rewriting_run _ _ m); [| | assumption].
    - simpl. fold req. rewrite Hr. reflexivity.
    - simpl. rewrite length_app. simpl. destruct (messages w); [congruence | simpl; lia]. }
  rewrite (retrieval_run user_input (PyStr.strip r) (VTensor E) C
             (appended user_input w) w1 Hrw HE HC).
  pose proof (get_context_calls_nonempty svc (PyStr.strip r) E C
                get_context_default_top_k w1 Hne) as Hcalls.
  destruct (get_context svc (PyStr.strip r) (VTensor E) C get_context_default_top_k w1)
    as [[ctx|e] w2]; simpl in *.
  - destruct (calls_at_most_reply svc G user_input ctx w2) as (l & Hl & _).
    exists l. rewrite Hl, Hcalls, <- !app_assoc. reflexivity.
  - exists []. rewrite Hcalls, <- app_assoc. reflexivity.
Qed.

(** X14. Later turns, rewriter down: when the rewrite request fails,
    [chat] raises its error at once; the raw user turn stays appended to
    the history, and neither the embedding service nor the completion
    service is asked for anything else. *)
Theorem chat_rewrite_failure_aborts_turn (user_input : string) (model : value)
    (top_k : Z) (w : world) (m : value) :
  messages w ≠ [] →
  G !! "ollama_model" = Some m →
  let req := rewrite_request m user_input (messages w ++ [Turn "user" user_input]) in
  chat_completions_create svc (calls w) req = None →
  chat svc G user_input model top_k w =
  (Raise CompletionServiceError,
   World (messages w ++ [Turn "user" user_input])
         (calls w ++ [CompletionsCall req])).
Proof.
  intros Hw Hm req Hr.
  rewrite chat_run.
  rewrite (retrieval_rewriting_raises svc G user_input CompletionServiceError
             (appended user_input w)
             (World (messages w ++ [Turn "user" user_input])
                    (calls w ++ [CompletionsCall req]))); [reflexivity |].
  rewrite (rewriting_run _ _ m); [| | assumption].
  - simpl. fold req. rewrite Hr. reflexivity.
  - simpl. rewrite length_app. simpl. destruct (messages w); [congruence | simpl; lia].
Qed.

(** X15. A turn costs at most three calls to the outside (one rewrite
    request, one embedding, one completion request), whatever the
    namespace, the services and the outcome; the calls logged before the
    turn stay in place. *)
Theorem chat_makes_at_most_three_calls (user_input : string) (model : value)
    (top_k : Z) :
  calls_at_most 3 (chat svc G user_input model top_k).
Proof.
  intros w. rewrite chat_phases.
  revert w. change (calls_at_most 3
    (history_append (Turn "user" user_input);;
     relevant_context ← retrieval svc G user_input;
     reply svc G user_input relevant_context)).
  apply (calls_at_most_bind 0 3); [apply calls_at_most_history_append |]. intros _.
  apply (calls_at_most_bind 2 1); [apply calls_at_most_retrieval |]. intros ctx.
  apply calls_at_most_reply.
Qed.

End ChatFacts.

(** ** The handler of the query box and the drawing of the history *)

Lemma alternates_app (h1 h2 : list turn) :
  alternates h1 = true → alternates (h1 ++ h2) = alternates h2.
Proof.
  remember (length h1) as n eqn:Hn. revert h1 Hn.
  induction n as [n IH] using lt_wf_ind. intros h1 Hn Halt.
  destruct h1 as [|u [|a rest]]; [reflexivity | discriminate |].
  simpl in Halt. apply andb_prop in Halt as [Hua Hrest].
  change ((u :: a :: rest) ++ h2) with (u :: a :: (rest ++ h2)).
  simpl. rewrite Hua. simpl.
  apply (IH (length rest)); [subst n; simpl; lia | reflexivity | assumption].
Qed.

Section HandlerFacts.

Context (svc : services) (G : namespace).

Lemma chat_Ok_retrieved (user_input : string) (model : value) (top_k : Z)
    (w w' : world) (r : string) :
  chat svc G user_input model top_k w = (Ok r, w') →
  ∃ ctx w1,
    retrieval svc G user_input (appended user_input w) = (Ok ctx, w1)
    ∧ messages w' =
      messages w ++ [Turn "user" (with_context user_input ctx); Turn "assistant" r].
Proof.
  rewrite chat_run.
  pose proof (retrieval_messages svc G user_input w) as Hm.
  destruct (retrieval svc G user_input (appended user_input w)) as [[ctx|e] w1];
    [| discriminate].
  simpl in Hm. rewrite (reply_run _ _ _ _ _ _ _ Hm). simpl.
  destruct (G !! "ollama_model") as [m|]; [| discriminate].
  destruct (chat_completions_create svc (calls w1) _); [| discriminate].
  intros [= <- <-]. exists ctx, w1. split; [reflexivity |].
  simpl. rewrite <- app_assoc. reflexivity.
Qed.

Lemma on_user_input_Ok (user_input : string) (model : value) (top_k : Z)
    (w w' : world) (r : string) :
  on_user_input svc G user_input model top_k w = (Ok (Some r), w') →
  ∃ w1, chat svc G user_input model top_k w = (Ok r, w1)
        ∧ messages w' =
          messages w1 ++ [Turn "user" user_input; Turn "assistant" r].
Proof.
  unfold on_user_input. destruct (decide (user_input = "")); [discriminate |].
  rewrite bind_run.
  destruct (chat svc G user_input model top_k w) as [[r0|e] w1]; [| discriminate].
  unfold history_append. rewrite !bind_run. simpl.
  intros [= <- <-]. exists w1. split; [reflexivity |].
  simpl. rewrite <- app_assoc. reflexivity.
Qed.

(** X16. A completed turn of the handler keeps the roles of the session
    history in the order user, assistant, user, assistant, ..., and makes
    the history four entries longer. *)
Theorem on_user_input_keeps_roles_alternating (user_input : string)
    (model : value) (top_k : Z) (w w' : world) (r : string) :
  alternates (messages w) = true →
  on_user_input svc G user_input model top_k w = (Ok (Some r), w') →
  alternates (messages w') = true
  ∧ length (messages w') = (length (messages w) + 4)%nat.
Proof.
  intros Halt Hrun.
  destruct (on_user_input_Ok _ _ _ _ _ _ Hrun) as (w1 & Hchat & Hw').
  destruct (chat_Ok_retrieved _ _ _ _ _ _ Hchat) as (ctx & w0 & _ & Hw1).
  rewrite Hw', Hw1, <- app_assoc. split.
  - rewrite alternates_app by assumption. reflexivity.
  - rewrite length_app. simpl. lia.
Qed.

(** X17. When the handler raises, it is [chat] that raised: the
    handler's own two appends did not happen, and the session history
    has grown by exactly one user turn, which stays there for the next
    run of the script. *)
Theorem on_user_input_failure_leaves_one_user_turn (user_input : string)
    (model : value) (top_k : Z) (w w' : world) (e : exn) :
  on_user_input svc G user_input model top_k w = (Raise e, w') →
  chat svc G user_input model top_k w = (Raise e, w')
  ∧ ∃ c, messages w' = messages w ++ [Turn "user" c].
Proof.
  unfold on_user_input. destruct (decide (user_input = "")); [discriminate |].
  rewrite bind_run.
  destruct (chat_history_outcome svc G user_input model top_k w) as [c Hc].
  destruct (chat svc G user_input model top_k w) as [[r0|e0] w1].
  - unfold history_append. rewrite !bind_run. simpl. discriminate.
  - intros [= <- <-]. split; [reflexivity |]. exists c. exact Hc.
Qed.

(** X18. What the next run of the script draws after a completed turn:
    the bubbles drawn before, then a user bubble with the text [chat]
    left in its user turn, which is the input followed by the retrieved
    chunks when there were any, then the reply, then the raw input, then
    the reply again. *)
Theorem display_history_after_turn (user_input : string) (model : value)
    (top_k : Z) (w w' : world) (r : string) :
  on_user_input svc G user_input model top_k w = (Ok (Some r), w') →
  ∃ ctx w1,
    retrieval svc G user_input (appended user_input w) = (Ok ctx, w1)
    ∧ Ui.display_history (messages w') =
      Ui.display_history (messages w)
      ++ [("user", with_context user_input ctx); ("assistant", r);
          ("user", user_input); ("assistant", r)].
Proof.
  intros Hrun.
  destruct (on_user_input_Ok _ _ _ _ _ _ Hrun) as (w1 & Hchat & Hw').
  destruct (chat_Ok_retrieved _ _ _ _ _ _ Hchat) as (ctx & w0 & Hret & Hw1).
  exists ctx, w0. split; [assumption |].
  rewrite Hw', Hw1, <- app_assoc. unfold Ui.display_history.
  rewrite fmap_app. reflexivity.
Qed.

End HandlerFacts.

(** ** Uploads *)

Lemma string_app_inj (p a b : string) : p +:+ a = p +:+ b → a = b.
Proof. induction p as [|c p IH]; simpl; [auto |]. intros [= H]. auto. Qed.

Section UploadFacts.

Import Ingestion.

Context (tmp_name : gmap string string → string)
        (loader_load : loader → gmap string string → option (list document))
        (split_documents : Z → Z → list document → option (list document))
        (uuid4 : nat → string)
        (add_documents : list (string * document) → list document → list string →
                         option (list (string * document)))
        (file_eq : uploaded_file → uploaded_file → bool).

Local Abbreviation add_to_vector_store' :=
  (add_to_vector_store tmp_name loader_load split_documents uuid4 add_documents).
Local Abbreviation ingest_each' :=
  (Ui.ingest_each tmp_name loader_load split_documents uuid4 add_documents).
Local Abbreviation on_upload' :=
  (Ui.on_upload tmp_name loader_load split_documents uuid4 add_documents file_eq).

(** What the disk looks like while the loader runs. *)
Local Abbreviation with_temp file v :=
  (<[tmp_name (fs v) := file_value file]> (fs v)).

Lemma add_to_vector_store_run (file : uploaded_file) (chunk_size chunk_overlap : Z)
    (v : vault) :
  add_to_vector_store' (Some file) chunk_size chunk_overlap v =
  let p := tmp_name (fs v) in
  match loader_load (select_loader (file_type file) p) (with_temp file v) with
  | None => (Raise LoadError, Vault (with_temp file v) (collection v) (uuids_drawn v))
  | Some data =>
      match split_documents chunk_size chunk_overlap
              (set_source (file_name file) <$> data) with
      | None =>
          (Raise SplitterError,
           Vault (with_temp file v) (collection v) (uuids_drawn v))
      | Some chunks =>
          let drawn := (uuids_drawn v + length chunks)%nat in
          let ids := (λ i, file_name file +:+ uuid4 i)
                       <$> seq (uuids_drawn v) (length chunks) in
          match add_documents (collection v) chunks ids with
          | None => (Raise StoreError, Vault (with_temp file v) (collection v) drawn)
          | Some c => (Ok tt, Vault (delete p (with_temp file v)) c drawn)
          end
      end
  end.
Proof.
  unfold add_to_vector_store, I_bind, mbind, write_temp, load,
    of_option, draw_uuids, store_add, unlink, fail, mret, I_ret. simpl.
  destruct (loader_load _ _) as [data|]; simpl; [| reflexivity].
  destruct (split_documents _ _ _) as [chunks|]; simpl; [| reflexivity].
  destruct (add_documents _ _ _) as [c|]; reflexivity.
Qed.

Lemma add_to_vector_store_disk (file : uploaded_file) (chunk_size chunk_overlap : Z)
    (v : vault) :
  fs v !! tmp_name (fs v) = None →
  match (add_to_vector_store' (Some file) chunk_size chunk_overlap v).1 with
  | Ok _ =>
      fs (add_to_vector_store' (Some file) chunk_size chunk_overlap v).2 = fs v
  | Raise _ =>
      fs (add_to_vector_store' (Some file) chunk_size chunk_overlap v).2 =
      with_temp file v
  end.
Proof.
  intros Hfree. rewrite add_to_vector_store_run. simpl.
  destruct (loader_load _ _) as [data|]; [| reflexivity].
  destruct (split_documents _ _ _) as [chunks|]; [| reflexivity].
  destruct (add_documents _ _ _) as [c|]; [| reflexivity].
  simpl. apply delete_insert_id. assumption.
Qed.

Lemma ingest_each_cons (f : uploaded_file) (files : list uploaded_file) (v : vault) :
  ingest_each' (f :: files) v =
  match add_to_vector_store' (Some f) Ui.default_chunk_size
          Ui.default_chunk_overlap v with
  | (Ok _, v1) => ingest_each' files v1
  | (Raise e, v1) => (Raise e, v1)
  end.
Proof. reflexivity. Qed.

Lemma ingest_each_disk (files : list uploaded_file) (v : vault) :
  fs v !! tmp_name (fs v) = None →
  match (ingest_each' files v).1 with
  | Ok _ => fs (ingest_each' files v).2 = fs v
  | Raise _ => ∃ f, f ∈ files ∧ fs (ingest_each' files v).2 = with_temp f v
  end.
Proof.
  revert v. induction files as [|f files IH]; intros v Hfree; [reflexivity |].
  rewrite ingest_each_cons.
  pose proof (add_to_vector_store_disk f Ui.default_chunk_size
                Ui.default_chunk_overlap v Hfree) as Hf.
  destruct (add_to_vector_store' (Some f) _ _ v) as [[[]|e] v1]; simpl in *.
  - assert (Hfree1 : fs v1 !! tmp_name (fs v1) = None) by (rewrite Hf; assumption).
    specialize (IH v1 Hfree1).
    destruct (ingest_each' files v1) as [[[]|e] v2]; simpl in *.
    + rewrite IH. assumption.
    + destruct IH as (g & Hg & Hfs). exists g.
      split; [right; assumption |]. rewrite Hfs, Hf. reflexivity.
  - exists f. split; [left | assumption].
Qed.

Lemma filter_all_known (uploaded session : list uploaded_file) :
  Forall (λ f, Ui.file_in file_eq f session = true) uploaded →
  List.filter (λ file, negb (Ui.file_in file_eq file session)) uploaded = [].
Proof.
  induction 1 as [|f l Hf Hl IH]; simpl; [reflexivity |].
  rewrite Hf. simpl. assumption.
Qed.

(** X19. Files the session has already recorded are not ingested again:
    when every uploaded file compares equal to a recorded one, the script
    touches neither the disk, nor the collection, nor the record. *)
Theorem on_upload_skips_recorded_files (uploaded : list uploaded_file) (a : Ui.app) :
  Forall (λ f, Ui.file_in file_eq f (Ui.session_uploaded_files a) = true) uploaded →
  on_upload' uploaded a = (Ok tt, a).
Proof.
  intros Hknown. unfold Ui.on_upload.
  destruct uploaded as [|f l]; [reflexivity |].
  rewrite (filter_all_known _ _ Hknown). reflexivity.
Qed.

(** X20. When the upload step completes, the files recorded in the
    session are the ones recorded before followed by the uploads that
    were not among them, in upload order, and the disk is as before: no
    temporary copy of any of them is left. *)
Theorem on_upload_success (uploaded : list uploaded_file) (a a' : Ui.app) :
  fs (Ui.app_vault a) !! tmp_name (fs (Ui.app_vault a)) = None →
  on_upload' uploaded a = (Ok tt, a') →
  Ui.session_uploaded_files a' =
    Ui.session_uploaded_files a
    ++ List.filter (λ file, negb (Ui.file_in file_eq file (Ui.session_uploaded_files a)))
                   uploaded
  ∧ fs (Ui.app_vault a') = fs (Ui.app_vault a).
Proof.
  intros Hfree. unfold Ui.on_upload.
  destruct uploaded as [|f l].
  { intros [= <-]. simpl. rewrite app_nil_r. split; reflexivity. }
  destruct (List.filter _ (f :: l)) as [|g new] eqn:Hnew.
  { intros [= <-]. rewrite app_nil_r. split; reflexivity. }
  pose proof (ingest_each_disk (g :: new) (Ui.app_vault a) Hfree) as Hdisk.
  destruct (ingest_each' (g :: new) (Ui.app_vault a)) as [[[]|e] v]; [| discriminate].
  intros [= <-]. simpl in Hdisk. simpl. split; [reflexivity | assumption].
Qed.

(** X21. When the ingestion of one of the new files raises, none of the
    new files is recorded in the session, those ingested before the
    failure included, so the next run of the script takes all of them as
    new again; and the disk holds one file more than before, the
    temporary copy of the upload that failed. *)
Theorem on_upload_failure (uploaded : list uploaded_file) (a a' : Ui.app) (e : exn) :
  fs (Ui.app_vault a) !! tmp_name (fs (Ui.app_vault a)) = None →
  on_upload' uploaded a = (Raise e, a') →
  Ui.session_uploaded_files a' = Ui.session_uploaded_files a
  ∧ ∃ f, f ∈ uploaded
         ∧ Ui.file_in file_eq f (Ui.session_uploaded_files a) = false
         ∧ fs (Ui.app_vault a') =
           <[tmp_name (fs (Ui.app_vault a)) := file_value f]> (fs (Ui.app_vault a)).
Proof.
  intros Hfree. unfold Ui.on_upload.
  destruct uploaded as [|f0 l]; [discriminate |].
  destruct (List.filter _ (f0 :: l)) as [|g new] eqn:Hnew; [discriminate |].
  pose proof (ingest_each_disk (g :: new) (Ui.app_vault a) Hfree) as Hdisk.
  destruct (ingest_each' (g :: new) (Ui.app_vault a)) as [[[]|e0] v]; [discriminate |].
  intros [= <- <-]. simpl in Hdisk. simpl. split; [reflexivity |].
  destruct Hdisk as (f & Hf & Hfs). exists f.
  rewrite <- Hnew in Hf. apply list_elem_of_In, filter_In in Hf as [Hin Hnot].
  split; [apply list_elem_of_In; assumption |].
  split; [| assumption].
  apply negb_true_iff. assumption.
Qed.

(** X22. The ids made for the chunks of one file are the file name
    followed by a uuid each, one id per chunk, and they are pairwise
    distinct whenever the uuids drawn are. *)
Theorem draw_uuids_distinct (name : string) (n : nat) (v : vault) :
  NoDup (uuid4 <$> seq (uuids_drawn v) n) →
  ∃ ids,
    draw_uuids uuid4 name n v =
      (Ok ids, Vault (fs v) (collection v) (uuids_drawn v + n))
    ∧ length ids = n
    ∧ NoDup ids
    ∧ Forall (λ id, ∃ u, id = name +:+ u) ids.
Proof.
  intros Hnd. exists ((λ i, name +:+ uuid4 i) <$> seq (uuids_drawn v) n).
  split; [reflexivity |]. split; [rewrite length_fmap, length_seq; reflexivity |].
  split.
  - rewrite (list_fmap_compose uuid4 (String.append name)).
    apply NoDup_fmap_2; [| assumption].
    intros x y. apply string_app_inj.
  - apply Forall_fmap, Forall_forall. intros i _. exists (uuid4 i). reflexivity.
Qed.

(** X23. When [add_to_vector_store] returns for a file, the loader chosen
    by the content type has read the temporary copy, which held the
    bytes of the upload; every document handed to the splitter carries
    the name of the upload under ["source"], whatever the loader had put
    there; and the collection is the one the store gave back for the
    chunks, with one id per chunk. *)
Theorem add_to_vector_store_success (file : uploaded_file)
    (chunk_size chunk_overlap : Z) (v v' : vault) :
  add_to_vector_store' (Some file) chunk_size chunk_overlap v = (Ok tt, v') →
  ∃ data chunks ids,
    with_temp file v !! tmp_name (fs v) = Some (file_value file)
    ∧ loader_load (select_loader (file_type file) (tmp_name (fs v)))
                  (with_temp file v) = Some data
    ∧ Forall (λ d, metadata d !! "source" = Some (file_name file))
             (set_source (file_name file) <$> data)
    ∧ split_documents chunk_size chunk_overlap (set_source (file_name file) <$> data)
      = Some chunks
    ∧ length ids = length chunks
    ∧ add_documents (collection v) chunks ids = Some (collection v').
Proof.
  rewrite add_to_vector_store_run. simpl.
  destruct (loader_load _ _) as [data|] eqn:Hload; [| discriminate].
  destruct (split_documents _ _ _) as [chunks|] eqn:Hsplit; [| discriminate].
  destruct (add_documents _ _ _) as [c|] eqn:Hadd; [| discriminate].
  intros [= <-].
  exists data, chunks, ((λ i, file_name file +:+ uuid4 i)
                          <$> seq (uuids_drawn v) (length chunks)).
  split; [apply lookup_insert_eq |]. split; [reflexivity |].
  split.
  { apply Forall_fmap, Forall_forall. intros d _. apply lookup_insert_eq. }
  split; [assumption |].
  split; [rewrite length_fmap, length_seq; reflexivity | assumption].
Qed.

End UploadFacts.

(** ** The further properties on the sample data *)

Lemma rewrite_query_missing_query_key_witness :
  rewrite_query Demo.svc (json_dumps [("Rewritten Query", "")]) Demo2.earlier_turns
                Demo.selected_model Demo.fresh_session
  = (Raise (KeyError "Query"), Demo.fresh_session).
Proof.
  apply (rewrite_query_missing_query_key Demo.svc
           (json_dumps [("Rewritten Query", "")]) Demo2.earlier_turns
           Demo.selected_model Demo.fresh_session).
  simpl. rewrite list_elem_of_singleton. discriminate.
Defined.

Lemma rewrite_query_returns_stripped_query_witness :
  ∃ user_input rq,
    ("Query", user_input) ∈ json_loads Demo2.query_json
    ∧ json_loads (json_dumps [("Rewritten Query", "It is blue.")])
      = [("Rewritten Query", rq)]
    ∧ PyStr.strip rq = rq
    ∧ (rewrite_query Demo.svc Demo2.query_json Demo2.earlier_turns
                     Demo.selected_model Demo.fresh_session).2
      = World (messages Demo.fresh_session)
              (calls Demo.fresh_session
               ++ [CompletionsCall
                     (rewrite_request Demo.selected_model user_input
                                      Demo2.earlier_turns)]).
Proof.
  apply (rewrite_query_returns_stripped_query Demo.svc Demo2.query_json
           (json_dumps [("Rewritten Query", "It is blue.")]) Demo2.earlier_turns
           Demo.selected_model Demo.fresh_session).
  vm_compute. reflexivity.
Defined.

Lemma get_context_negative_top_k_raises_witness :
  get_context Demo.svc Demo.question (VTensor Demo.vault_embeddings)
              (VList Demo.vault_content) (-1) Demo.fresh_session
  = (Raise RuntimeError,
     World (messages Demo.fresh_session)
           (calls Demo.fresh_session
            ++ [EmbeddingsCall "nomic-embed-text" Demo.question])).
Proof.
  apply (get_context_negative_top_k_raises Demo.svc Demo.question
           Demo.vault_embeddings (VList Demo.vault_content) (-1)
           Demo.fresh_session [1; 0]%Q [1; 0; 1; 2]%Q).
  - discriminate.
  - reflexivity.
  - vm_compute. reflexivity.
  - lia.
Defined.

Lemma get_context_short_content_raises_witness :
  get_context Demo.svc Demo.question (VTensor Demo.vault_embeddings)
              (VList ["alpha"]) 4 Demo.fresh_session
  = (Raise IndexError,
     World (messages Demo.fresh_session)
           (calls Demo.fresh_session
            ++ [EmbeddingsCall "nomic-embed-text" Demo.question])).
Proof.
  apply (get_context_short_content_raises Demo.svc Demo.question
           Demo.vault_embeddings ["alpha"] 4 Demo.fresh_session
           [1; 0]%Q [1; 0; 1; 2]%Q).
  - discriminate.
  - reflexivity.
  - vm_compute. reflexivity.
  - reflexivity.
  - simpl. lia.
  - simpl. lia.
Defined.

Lemma get_context_single_chunk_witness :
  get_context Demo.svc Demo.question (VTensor [[1; 0]%Q]) (VList [" beta "]) 3
              Demo.fresh_session
  = (Ok [PyStr.strip " beta "],
     World (messages Demo.fresh_session)
           (calls Demo.fresh_session
            ++ [EmbeddingsCall "nomic-embed-text" Demo.question])).
Proof.
  apply (get_context_single_chunk Demo.svc Demo.question [1; 0]%Q " beta " 3
           Demo.fresh_session [1; 0]%Q 1%Q).
  - discriminate.
  - reflexivity.
  - vm_compute. reflexivity.
  - lia.
Defined.

Lemma get_context_returns_stripped_chunks_witness :
  Forall (λ c, PyStr.strip c = c) ["delta"; "alpha"; "gamma"; "beta"].
Proof.
  apply (get_context_returns_stripped_chunks Demo.svc Demo.question
           (VTensor Demo.vault_embeddings) (VList Demo.vault_content) 4
           Demo.fresh_session
           (World [] [EmbeddingsCall "nomic-embed-text" Demo.question])).
  vm_compute. reflexivity.
Defined.

Lemma chat_first_turn_empty_store_witness :
  chat Demo.svc Demo2.globals_empty_store Demo.question Demo.selected_model 3
       Demo.fresh_session
  = (Ok "It is blue.",
     World [Turn "user" Demo.question; Turn "assistant" "It is blue."]
           [CompletionsCall
              (Request Demo.selected_model
                 [Turn "system" system_message; Turn "user" Demo.question]
                 2000 None None)]).
Proof.
  exact (chat_first_turn_empty_store Demo.svc Demo2.globals_empty_store
           Demo.question Demo.selected_model 3 Demo.fresh_session
           Demo.selected_model (VList Demo.vault_content) []
           eq_refl
           ltac:(vm_compute; reflexivity) ltac:(vm_compute; reflexivity)
           ltac:(vm_compute; reflexivity) eq_refl).
Defined.

Lemma chat_first_turn_embeds_raw_input_witness :
  ∃ l, calls (chat Demo.svc Demo.globals Demo.question Demo.selected_model 3
                   Demo.fresh_session).2
       = calls Demo.fresh_session
         ++ EmbeddingsCall "nomic-embed-text" Demo.question :: l.
Proof.
  apply (chat_first_turn_embeds_raw_input Demo.svc Demo.globals Demo.question
           Demo.selected_model 3 Demo.fresh_session (VList Demo.vault_content)
           Demo.vault_embeddings).
  - reflexivity.
  - vm_compute. reflexivity.
  - vm_compute. reflexivity.
  - discriminate.
Defined.

Lemma chat_later_turn_embeds_rewritten_query_witness :
  ∃ l, calls (chat Demo.svc Demo.globals Demo.question Demo.selected_model 3
                   Demo2.later_session).2
       = calls Demo2.later_session
         ++ CompletionsCall
              (rewrite_request Demo.selected_model Demo.question
                 (messages Demo2.later_session ++ [Turn "user" Demo.question]))
            :: EmbeddingsCall "nomic-embed-text" (PyStr.strip "It is blue.") :: l.
Proof.
  apply (chat_later_turn_embeds_rewritten_query Demo.svc Demo.globals
           Demo.question Demo.selected_model 3 Demo2.later_session
           Demo.selected_model (VList Demo.vault_content) Demo.vault_embeddings
           "It is blue.").
  - discriminate.
  - vm_compute. reflexivity.
  - vm_compute. reflexivity.
  - vm_compute. reflexivity.
  - discriminate.
  - reflexivity.
Defined.

Lemma chat_rewrite_failure_aborts_turn_witness :
  chat Demo.svc_completions_down Demo.globals Demo.question Demo.selected_model 3
       Demo2.later_session
  = (Raise CompletionServiceError,
     World (messages Demo2.later_session ++ [Turn "user" Demo.question])
           (calls Demo2.later_session
            ++ [CompletionsCall
                  (rewrite_request Demo.selected_model Demo.question
                     (messages Demo2.later_session
                      ++ [Turn "user" Demo.question]))])).
Proof.
  apply (chat_rewrite_failure_aborts_turn Demo.svc_completions_down Demo.globals
           Demo.question Demo.selected_model 3 Demo2.later_session
           Demo.selected_model).
  - discriminate.
  - vm_compute. reflexivity.
  - reflexivity.
Defined.

Lemma on_user_input_keeps_roles_alternating_witness :
  alternates
    (messages (on_user_input Demo.svc Demo.globals Demo.question
                 Demo.selected_model 3 Demo2.later_session).2) = true
  ∧ length (messages (on_user_input Demo.svc Demo.globals Demo.question
                        Demo.selected_model 3 Demo2.later_session).2)
    = (length (messages Demo2.later_session) + 4)%nat.
Proof.
  apply (on_user_input_keeps_roles_alternating Demo.svc Demo.globals Demo.question
           Demo.selected_model 3 Demo2.later_session _ "It is blue.").
  - reflexivity.
  - vm_compute. reflexivity.
Defined.

Lemma on_user_input_failure_leaves_one_user_turn_witness :
  chat Demo.svc_completions_down Demo.globals Demo.question Demo.selected_model 3
       Demo.fresh_session
  = (Raise CompletionServiceError,
     (on_user_input Demo.svc_completions_down Demo.globals Demo.question
        Demo.selected_model 3 Demo.fresh_session).2)
  ∧ ∃ c, messages (on_user_input Demo.svc_completions_down Demo.globals
                     Demo.question Demo.selected_model 3 Demo.fresh_session).2
         = messages Demo.fresh_session ++ [Turn "user" c].
Proof.
  apply (on_user_input_failure_leaves_one_user_turn Demo.svc_completions_down
           Demo.globals Demo.question Demo.selected_model 3 Demo.fresh_session).
  vm_compute. reflexivity.
Defined.

Lemma display_history_after_turn_witness :
  ∃ ctx w1,
    retrieval Demo.svc Demo.globals Demo.question
              (appended Demo.question Demo.fresh_session) = (Ok ctx, w1)
    ∧ Ui.display_history
        (messages (on_user_input Demo.svc Demo.globals Demo.question
                     Demo.selected_model 3 Demo.fresh_session).2)
      = Ui.display_history (messages Demo.fresh_session)
        ++ [("user", with_context Demo.question ctx); ("assistant", "It is blue.");
            ("user", Demo.question); ("assistant", "It is blue.")].
Proof.
  apply (display_history_after_turn Demo.svc Demo.globals Demo.question
           Demo.selected_model 3 Demo.fresh_session).
  vm_compute. reflexivity.
Defined.

Lemma on_upload_skips_recorded_files_witness :
  Ui.on_upload Demo.tmp_name Demo.loader_up Demo.split_documents Demo.uuid4
    Demo.add_documents Demo2.same_name [Demo.upload] Demo2.app_with_upload
  = (Ok tt, Demo2.app_with_upload).
Proof.
  apply (on_upload_skips_recorded_files Demo.tmp_name Demo.loader_up
           Demo.split_documents Demo.uuid4 Demo.add_documents Demo2.same_name
           [Demo.upload] Demo2.app_with_upload).
  constructor; [reflexivity | constructor].
Defined.

Lemma on_upload_success_witness :
  Ui.session_uploaded_files
    (Ui.on_upload Demo.tmp_name Demo.loader_up Demo.split_documents Demo.uuid4
       Demo.add_documents Demo2.same_name [Demo.upload; Demo2.upload2]
       Demo2.fresh_app).2
  = Ui.session_uploaded_files Demo2.fresh_app
    ++ List.filter
         (λ file, negb (Ui.file_in Demo2.same_name file
                          (Ui.session_uploaded_files Demo2.fresh_app)))
         [Demo.upload; Demo2.upload2]
  ∧ Ingestion.fs
      (Ui.app_vault
         (Ui.on_upload Demo.tmp_name Demo.loader_up Demo.split_documents Demo.uuid4
            Demo.add_documents Demo2.same_name [Demo.upload; Demo2.upload2]
            Demo2.fresh_app).2)
    = Ingestion.fs (Ui.app_vault Demo2.fresh_app).
Proof.
  apply (on_upload_success Demo.tmp_name Demo.loader_up Demo.split_documents
           Demo.uuid4 Demo.add_documents Demo2.same_name
           [Demo.upload; Demo2.upload2] Demo2.fresh_app).
  - reflexivity.
  - vm_compute. reflexivity.
Defined.

Lemma on_upload_failure_witness :
  Ui.session_uploaded_files
    (Ui.on_upload Demo.tmp_name Demo.loader_down Demo.split_documents Demo.uuid4
       Demo.add_documents Demo2.same_name [Demo.upload; Demo2.upload2]
       Demo2.fresh_app).2
  = Ui.session_uploaded_files Demo2.fresh_app
  ∧ ∃ f, f ∈ [Demo.upload; Demo2.upload2]
         ∧ Ui.file_in Demo2.same_name f (Ui.session_uploaded_files Demo2.fresh_app)
           = false
         ∧ Ingestion.fs
             (Ui.app_vault
                (Ui.on_upload Demo.tmp_name Demo.loader_down Demo.split_documents
                   Demo.uuid4 Demo.add_documents Demo2.same_name
                   [Demo.upload; Demo2.upload2] Demo2.fresh_app).2)
           = <[Demo.tmp_name (Ingestion.fs (Ui.app_vault Demo2.fresh_app))
               := Ingestion.file_value f]>
               (Ingestion.fs (Ui.app_vault Demo2.fresh_app)).
Proof.
  apply (on_upload_failure Demo.tmp_name Demo.loader_down Demo.split_documents
           Demo.uuid4 Demo.add_documents Demo2.same_name
           [Demo.upload; Demo2.upload2] Demo2.fresh_app _ LoadError).
  - reflexivity.
  - vm_compute. reflexivity.
Defined.

Lemma draw_uuids_distinct_witness :
  ∃ ids,
    Ingestion.draw_uuids Demo2.uuid_of "sky.txt" 3 Demo.empty_vault =
      (Ok ids, Ingestion.Vault (Ingestion.fs Demo.empty_vault)
                 (Ingestion.collection Demo.empty_vault)
                 (Ingestion.uuids_drawn Demo.empty_vault + 3))
    ∧ length ids = 3%nat
    ∧ NoDup ids
    ∧ Forall (λ id, ∃ u, id = "sky.txt" +:+ u) ids.
Proof.
  apply (draw_uuids_distinct Demo2.uuid_of "sky.txt" 3 Demo.empty_vault).
  apply (bool_decide_unpack _). vm_compute. exact I.
Defined.

Lemma add_to_vector_store_success_witness :
  ∃ data chunks ids,
    (<[Demo.tmp_name (Ingestion.fs Demo.empty_vault)
       := Ingestion.file_value Demo.upload]> (Ingestion.fs Demo.empty_vault))
      !! Demo.tmp_name (Ingestion.fs Demo.empty_vault)
    = Some (Ingestion.file_value Demo.upload)
    ∧ Demo.loader_up
        (Ingestion.select_loader (Ingestion.file_type Demo.upload)
           (Demo.tmp_name (Ingestion.fs Demo.empty_vault)))
        (<[Demo.tmp_name (Ingestion.fs Demo.empty_vault)
           := Ingestion.file_value Demo.upload]> (Ingestion.fs Demo.empty_vault))
      = Some data
    ∧ Forall (λ d, Ingestion.metadata d !! "source"
                   = Some (Ingestion.file_name Demo.upload))
             (Ingestion.set_source (Ingestion.file_name Demo.upload) <$> data)
    ∧ Demo.split_documents 256 100
        (Ingestion.set_source (Ingestion.file_name Demo.upload) <$> data)
      = Some chunks
    ∧ length ids = length chunks
    ∧ Demo.add_documents (Ingestion.collection Demo.empty_vault) chunks ids
      = Some (Ingestion.collection
                (Ingestion.add_to_vector_store Demo.tmp_name Demo.loader_up
                   Demo.split_documents Demo.uuid4 Demo.add_documents
                   (Some Demo.upload) 256 100 Demo.empty_vault).2).
Proof.
  apply (add_to_vector_store_success Demo.tmp_name Demo.loader_up
           Demo.split_documents Demo.uuid4 Demo.add_documents Demo.upload 256 100
           Demo.empty_vault).
  vm_compute. reflexivity.
Defined.

(** ** An embedding failure during a turn *)

(** C6 (as amended). When the store is not empty and the embedding call
    inside [get_context] fails, [chat] raises that error and the turn ends
    there: the raw user turn is appended to the history, the embedding
    call is the last call made, and no reply is produced. On a first turn
    (history empty on entry) the query embedded is the raw input and the
    embedding call is the only call of the turn. On a later turn the
    query embedded is the stripped answer of the rewriter, and the
    embedding call is preceded by one completion request, the one
    [rewrite_query] sent. In both cases the request for the main reply is
    not among the calls of the turn. *)
Theorem chat_embedding_failure_aborts_turn (svc : services) (G : namespace)
    (user_input : string) (model : value) (top_k : Z) (w w1 : world)
    (rq : string) (E : tensor) (C : value) :
  rewriting svc G user_input (messages w ++ [Turn "user" user_input])
            (appended user_input w) = (Ok rq, w1) →
  G !! "vault_embeddings" = Some (VTensor E) →
  G !! "vault_content" = Some C →
  concat E ≠ [] →
  ollama_embeddings svc (calls w1) "nomic-embed-text" rq = None →
  chat svc G user_input model top_k w =
  (Raise EmbeddingServiceError,
   World (messages w ++ [Turn "user" user_input])
         (calls w1 ++ [EmbeddingsCall "nomic-embed-text" rq]))
  ∧ (messages w = [] → rq = user_input ∧ calls w1 = calls w)
  ∧ (messages w ≠ [] →
     ∃ m r,
       G !! "ollama_model" = Some m
       ∧ chat_completions_create svc (calls w)
           (rewrite_request m user_input (messages w ++ [Turn "user" user_input]))
         = Some r
       ∧ rq = PyStr.strip r
       ∧ calls w1 =
         calls w
         ++ [CompletionsCall
               (rewrite_request m user_input
                  (messages w ++ [Turn "user" user_input]))])
  ∧ (∀ m h,
       CompletionsCall (main_request m h)
       ∉ drop (length (calls w))
              (calls (chat svc G user_input model top_k w).2)).
Proof.
  intros Hrw HE HC Hne Hemb.
  assert (Hchat : chat svc G user_input model top_k w =
                  (Raise EmbeddingServiceError,
                   World (messages w ++ [Turn "user" user_input])
                         (calls w1 ++ [EmbeddingsCall "nomic-embed-text" rq]))).
  { rewrite chat_run. unfold retrieval.
    rewrite bind_run. simpl. rewrite bind_run, Hrw.
    pose proof (keeps_rewriting svc G user_input
                  (messages w ++ [Turn "user" user_input])
                  (appended user_input w)) as Hm.
    rewrite Hrw in Hm. simpl in Hm.
    unfold load_global. rewrite !bind_run, HE. simpl. rewrite HC. simpl.
    rewrite bind_run. simpl.
    rewrite (get_context_embedding_failure _ _ _ _ _ _ Hne Hemb), Hm.
    reflexivity. }
  assert (Hfirst : messages w = [] → rq = user_input ∧ calls w1 = calls w).
  { intros Hw. rewrite Hw in Hrw. simpl in Hrw.
    rewrite rewriting_single_turn in Hrw. injection Hrw as <- <-.
    split; reflexivity. }
  assert (Hlater : messages w ≠ [] →
     ∃ m r,
       G !! "ollama_model" = Some m
       ∧ chat_completions_create svc (calls w)
           (rewrite_request m user_input (messages w ++ [Turn "user" user_input]))
         = Some r
       ∧ rq = PyStr.strip r
       ∧ calls w1 =
         calls w
         ++ [CompletionsCall
               (rewrite_request m user_input
                  (messages w ++ [Turn "user" user_input]))]).
  { intros Hw.
    assert (Hlen : (1 < length (messages w ++ [Turn "user" user_input]))%nat).
    { rewrite length_app. simpl. destruct (messages w); [congruence | simpl; lia]. }
    destruct (G !! "ollama_model") as [m|] eqn:Hm.
    - rewrite (rewriting_run svc G user_input _ m _ Hlen Hm) in Hrw.
      cbv zeta in Hrw.
      change (calls (appended user_input w)) with (calls w) in Hrw.
      destruct (chat_completions_create svc (calls w) _) as [r|] eqn:Hr;
        [| discriminate].
      injection Hrw as <- <-. exists m, r.
      split; [reflexivity |]. split; [assumption |]. split; reflexivity.
    - rewrite (rewriting_unbound_model svc G user_input _ _ Hlen Hm) in Hrw.
      discriminate. }
  split; [assumption |]. split; [assumption |]. split; [assumption |].
  intros m h. rewrite Hchat. simpl.
  destruct (messages w) as [|t rest] eqn:Hw.
  - destruct (Hfirst eq_refl) as [_ ->].
    rewrite drop_app_length. intros Hin.
    apply list_elem_of_singleton in Hin. discriminate.
  - destruct Hlater as (m' & r & _ & _ & _ & ->); [discriminate |].
    rewrite <- app_assoc, drop_app_length. intros Hin.
    apply elem_of_cons in Hin as [Heq|Hin].
    + unfold main_request, rewrite_request in Heq. discriminate.
    + apply list_elem_of_singleton in Hin. discriminate.
Qed.

Lemma chat_embedding_failure_aborts_turn_witness :
  chat Demo.svc_embeddings_down Demo.globals Demo.question Demo.selected_model 3
       Demo2.later_session =
  (Raise EmbeddingServiceError,
   World (messages Demo2.later_session ++ [Turn "user" Demo.question])
         ((calls Demo2.later_session
           ++ [CompletionsCall
                 (rewrite_request Demo.selected_model Demo.question
                    (messages Demo2.later_session
                     ++ [Turn "user" Demo.question]))])
          ++ [EmbeddingsCall "nomic-embed-text" (PyStr.strip "It is blue.")]))
  ∧ ∀ m h,
      CompletionsCall (main_request m h)
      ∉ drop (length (calls Demo2.later_session))
             (calls (chat Demo.svc_embeddings_down Demo.globals Demo.question
                          Demo.selected_model 3 Demo2.later_session).2).
Proof.
  destruct (chat_embedding_failure_aborts_turn Demo.svc_embeddings_down
              Demo.globals Demo.question Demo.selected_model 3
              Demo2.later_session
              (World (messages Demo2.later_session ++ [Turn "user" Demo.question])
                     (calls Demo2.later_session
                      ++ [CompletionsCall
                            (rewrite_request Demo.selected_model Demo.question
                               (messages Demo2.later_session
                                ++ [Turn "user" Demo.question]))]))
              (PyStr.strip "It is blue.") Demo.vault_embeddings
              (VList Demo.vault_content))
    as (Hchat & _ & _ & Hmain).
  - vm_compute. reflexivity.
  - vm_compute. reflexivity.
  - vm_compute. reflexivity.
  - discriminate.
  - reflexivity.
  - split; [exact Hchat | exact Hmain].
Defined.
